(** * The chain-state store of [api/services/chain/db.ts]

    A shallow embedding of [ChainDatabase] (a Dexie database over IndexedDB)
    and of [getOrCreateDB], followed by the properties of its queries and
    updates.  Time stamps and [Date.now()] are integers ([Z]); the current
    time is passed to every operation that reads the clock. *)

From Stdlib Require Import ZArith Lia.
From stdpp Require Import base tactics option list gmap strings sorting.

Local Open Scope Z_scope.

(** ** JavaScript values *)

(** The values that the query methods of the store manipulate: stored
    records, arrays of them, promises, [null] and [undefined]. *)
Inductive JSValue (T : Type) : Type :=
| JSUndefined
| JSNull
| JSRecord (r : T)
| JSArray (xs : list T)
| JSPromise (fulfilled : JSValue T).

Arguments JSUndefined {T}.
Arguments JSNull {T}.
Arguments JSRecord {T} r.
Arguments JSArray {T} xs.
Arguments JSPromise {T} fulfilled.

(** [v[i]]: arrays have indexed elements; a promise object, a stored
    record, [null] and [undefined] have none (the stored records have no
    numeric property names). *)
Definition js_get_index {T} (v : JSValue T) (i : nat) : JSValue T :=
  match v with
  | JSArray xs => match xs !! i with Some r => JSRecord r | None => JSUndefined end
  | _ => JSUndefined
  end.

(** [v.length], read only where the code reads it: on arrays. *)
Definition js_length {T} (v : JSValue T) : Z :=
  match v with
  | JSArray xs => Z.of_nat (length xs)
  | _ => 0
  end.

Definition js_truthy {T} (v : JSValue T) : bool :=
  match v with
  | JSUndefined | JSNull => false
  | _ => true
  end.

(** [a || b] *)
Definition js_or {T} (a b : JSValue T) : JSValue T :=
  if js_truthy a then a else b.

(** [await v]: the value a fulfilled promise holds; any other value is
    awaited to itself. *)
Definition await {T} (v : JSValue T) : JSValue T :=
  match v with
  | JSPromise x => x
  | _ => v
  end.

(** [return v] in an [async] function: the caller receives a promise, which
    adopts [v] when [v] is itself a promise. *)
Definition async_return {T} (v : JSValue T) : JSValue T :=
  match v with
  | JSPromise _ => v
  | _ => JSPromise v
  end.

(** [Array.prototype.sort(cmp)]: a stable sort; [x] is placed before [y] when
    [cmp x y <= 0]. *)
Fixpoint insert_by {A} (cmp : A → A → Z) (x : A) (l : list A) : list A :=
  match l with
  | [] => [x]
  | y :: l' => if cmp x y <=? 0 then x :: l else y :: insert_by cmp x l'
  end.

Definition array_sort {A} (cmp : A → A → Z) (l : list A) : list A :=
  foldr (insert_by cmp) [] l.

(** ** IndexedDB keys *)

(** The order IndexedDB puts on keys: numbers by value, strings by code
    unit, arrays (compound keys) component by component. *)
Class IDBKey (K : Type) := key_compare : K → K → comparison.

#[global] Instance IDBKey_Z : IDBKey Z := Z.compare.
#[global] Instance IDBKey_string : IDBKey string := String.compare.
#[global] Instance IDBKey_pair {A B} `{IDBKey A, IDBKey B} : IDBKey (A * B) :=
  fun k1 k2 =>
    match key_compare (fst k1) (fst k2) with
    | Eq => key_compare (snd k1) (snd k2)
    | c => c
    end.

Definition key_above {K} `{IDBKey K} (k lower : K) : bool :=
  match key_compare k lower with Gt => true | _ => false end.

Definition key_cmp_Z {K} `{IDBKey K} (k1 k2 : K) : Z :=
  match key_compare k1 k2 with Lt => -1 | Eq => 0 | Gt => 1 end.

(** ** Dexie *)

Module Dexie.

Inductive Direction := Next | Prev.

(** A collection: the rows an index range selects, in ascending order of
    the index, a chain of filters and a direction of iteration. *)
Record Collection (V : Type) := mkCollection {
  ctx_rows : list V;
  ctx_filter : V → bool;
  ctx_dir : Direction
}.

Arguments mkCollection {V}.
Arguments ctx_rows {V}.
Arguments ctx_filter {V}.
Arguments ctx_dir {V}.

Inductive Error :=
| ConstraintError
| BulkError (numFailures : nat).

(** How a promise of a write operation settles. *)
Inductive Settled := Fulfilled | Rejected (e : Error).

Section Table.
Context {K : Type} `{Countable K} `{IDBKey K} {V : Type}.

(** A table is a finite map from primary keys to rows; [keyPath] extracts
    the inbound primary key of a row. *)
Variable keyPath : V → K.

Definition get (k : K) (t : gmap K V) : option V := t !! k.

Definition put (v : V) (t : gmap K V) : gmap K V := <[keyPath v := v]> t.

(** [add] fails with a constraint error when the key is taken. *)
Definition add (v : V) (t : gmap K V) : gmap K V * option Error :=
  match t !! keyPath v with
  | Some _ => (t, Some ConstraintError)
  | None => (<[keyPath v := v]> t, None)
  end.

Definition clear (t : gmap K V) : gmap K V := ∅.

Definition count (t : gmap K V) : nat := size t.

(** [bulkAdd] adds the rows one after the other; the failing ones are
    skipped and counted, and the promise rejects with a [BulkError] when
    there is any. *)
Fixpoint bulkAdd_loop (vs : list V) (t : gmap K V) (failures : nat) : gmap K V * nat :=
  match vs with
  | [] => (t, failures)
  | v :: vs' =>
      match add v t with
      | (t', None) => bulkAdd_loop vs' t' failures
      | (t', Some _) => bulkAdd_loop vs' t' (S failures)
      end
  end.

Definition bulkAdd (vs : list V) (t : gmap K V) : gmap K V * option Error :=
  match bulkAdd_loop vs t 0%nat with
  | (t', O) => (t', None)
  | (t', n) => (t', Some (BulkError n))
  end.

(** The rows in ascending order of an index [idx]; rows with equal index
    keys follow in the order of their primary keys. *)
Definition index_rows {I} `{IDBKey I} (idx : V → I) (t : gmap K V) : list V :=
  snd <$> array_sort
            (fun r1 r2 => key_cmp_Z (idx (snd r1), fst r1) (idx (snd r2), fst r2))
            (map_to_list t).

(** The rows in the order of the primary key, and [table.toArray()], which
    promises them. *)
Definition primary_rows (t : gmap K V) : list V :=
  snd <$> array_sort (fun r1 r2 => key_cmp_Z (fst r1) (fst r2)) (map_to_list t).

Definition toArray (t : gmap K V) : JSValue V :=
  JSPromise (JSArray (primary_rows t)).

(** [table.where(idx).above(lower)] *)
Definition where_above {I} `{IDBKey I} (idx : V → I) (lower : I) (t : gmap K V) : Collection V :=
  mkCollection (List.filter (fun r => key_above (idx r) lower) (index_rows idx t))
               (fun _ => true) Next.

(** [table.where(primaryKey).equals(k)] *)
Definition where_equals (k : K) (t : gmap K V) : Collection V :=
  mkCollection (option_list (t !! k)) (fun _ => true) Next.

(** [table.where(primaryKey).equals(k).modify(changes)]: the changes are
    applied to the row stored under [k], when there is one. *)
Definition modify_equals (k : K) (changes : V → V) (t : gmap K V) : gmap K V :=
  alter changes k t.

End Table.

Definition filter {V} (f : V → bool) (c : Collection V) : Collection V :=
  mkCollection (ctx_rows c) (fun r => ctx_filter c r && f r) (ctx_dir c).

Definition reverse {V} (c : Collection V) : Collection V :=
  mkCollection (ctx_rows c) (ctx_filter c)
               (match ctx_dir c with Next => Prev | Prev => Next end).

(** The rows a cursor over the collection visits, in the order of the
    visit. *)
Definition iterate {V} (c : Collection V) : list V :=
  let rows := List.filter (ctx_filter c) (ctx_rows c) in
  match ctx_dir c with Next => rows | Prev => rev rows end.

Definition collection_toArray {V} (c : Collection V) : JSValue V :=
  JSPromise (JSArray (iterate c)).

(** [sortBy(keyPath)] collects the rows and sorts them with
    [aVal < bVal ? -order : aVal > bVal ? order : 0], where [order] is [1]
    for a forward collection and [-1] for a reversed one. *)
Definition sorter {V} (order : Z) (getval : V → Z) (a b : V) : Z :=
  if getval a <? getval b then - order
  else if getval a >? getval b then order
  else 0.

Definition sortBy_rows {V} (getval : V → Z) (c : Collection V) : list V :=
  let order := match ctx_dir c with Next => 1 | Prev => -1 end in
  array_sort (sorter order getval) (iterate c).

Definition sortBy {V} (getval : V → Z) (c : Collection V) : JSValue V :=
  JSPromise (JSArray (sortBy_rows getval c)).

(** [db.transaction("rw", table, scope)]: the operations of the scope run
    on the tables; when one of them is rejected and nothing handles the
    rejection the transaction aborts, the tables keep their previous
    contents and the promise of the transaction rejects. Otherwise the
    changes are committed. *)
Definition transaction {S} (scope : S → S * list Error) (s : S) : S * Settled :=
  match scope s with
  | (s', []) => (s', Fulfilled)
  | (_, e :: _) => (s, Rejected e)
  end.

End Dexie.

(** ** The records of the store *)

(** The record types of [../../types] are imported by [db.ts] but are not
    among the sources at hand. Each is given with the fields the data model
    of the specification lists and the fields [db.ts] reads or indexes; the
    remaining, chain-specific fields are kept as an uninterpreted list of
    named values. A field that may be [null] is an [option]. *)

Module Network.
(** Modelled from the spec: [Network] of [../../types], the network identity
    [{ family, chainID, name }]. *)
Record t := mk { family : string; chainID : string; name : string }.
End Network.

Module AccountNetwork.
(** Modelled from the spec: [AccountNetwork] of [../../types], a tracked
    account on a network. *)
Record t := mk { account : string; network : Network.t }.
End AccountNetwork.

Module EIP1559Block.
(** Modelled from the spec: [EIP1559Block] of [../../types], a partial block
    header. *)
Record t := mk {
  hash : string;
  parentHash : string;
  blockHeight : Z;
  timestamp : Z;
  network : Network.t
}.
End EIP1559Block.

Module AnyEVMTransaction.
(** Modelled from the spec: [AnyEVMTransaction] of [../../types]; [blockHash]
    and [blockHeight] are [null] while the transaction is pending. *)
Record t := mk {
  hash : string;
  from : string;
  to : string;
  nonce : Z;
  blockHash : option string;
  blockHeight : option Z;
  network : Network.t;
  extra : list (string * string)
}.
End AnyEVMTransaction.

Module FungibleAsset.
(** Modelled from the spec: [FungibleAsset] of [../../types]. *)
Record t := mk { symbol : string; extra : list (string * string) }.
End FungibleAsset.

Module AssetAmount.
(** Modelled from the spec: the [assetAmount] field of [AccountBalance]. *)
Record t := mk { amount : Z; asset : FungibleAsset.t }.
End AssetAmount.

Module AccountBalance.
(** Modelled from the spec: [AccountBalance] of [../../types]. *)
Record t := mk {
  account : string;
  network : Network.t;
  assetAmount : AssetAmount.t;
  blockHeight : Z;
  retrievedAt : Z
}.
End AccountBalance.

(** [Transaction["dataSource"]] *)
Inductive DataSource := alchemy | local.

(** [type Transaction = AnyEVMTransaction & { dataSource; firstSeen }] *)
Module Transaction.
Record t := mk {
  tx : AnyEVMTransaction.t;
  dataSource : DataSource;
  firstSeen : Z
}.
End Transaction.

Module Migration.
Record t := mk { id : Z; appliedAt : Z }.
End Migration.

(** ** The database *)

(** The five tables of version 1 of the schema. Each is keyed by the first
    entry of its store declaration: [++id] for [migrations] and [balances],
    [[account+network.name+network.chainID]] for [accountsToTrack] and
    [[hash+network.name]] for [transactions] and [blocks]. *)
Record ChainDatabase := mkChainDatabase {
  accountsToTrack : gmap (string * string * string) AccountNetwork.t;
  blocks : gmap (string * string) EIP1559Block.t;
  transactions : gmap (string * string) Transaction.t;
  balances : gmap Z AccountBalance.t;
  migrations : gmap Z Migration.t
}.

Definition accountsToTrack_keyPath (an : AccountNetwork.t) : string * string * string :=
  (AccountNetwork.account an,
   Network.name (AccountNetwork.network an),
   Network.chainID (AccountNetwork.network an)).

Definition transactions_keyPath (row : Transaction.t) : string * string :=
  (AnyEVMTransaction.hash (Transaction.tx row),
   Network.name (AnyEVMTransaction.network (Transaction.tx row))).

Definition blocks_keyPath (b : EIP1559Block.t) : string * string :=
  (EIP1559Block.hash b, Network.name (EIP1559Block.network b)).

(** The index [[network.name+timestamp]] of [blocks]. *)
Definition blocks_name_timestamp (b : EIP1559Block.t) : string * Z :=
  (Network.name (EIP1559Block.network b), EIP1559Block.timestamp b).

Definition with_accountsToTrack (db : ChainDatabase) t : ChainDatabase :=
  mkChainDatabase t (blocks db) (transactions db) (balances db) (migrations db).

Definition with_transactions (db : ChainDatabase) t : ChainDatabase :=
  mkChainDatabase (accountsToTrack db) (blocks db) t (balances db) (migrations db).

Definition with_migrations (db : ChainDatabase) t : ChainDatabase :=
  mkChainDatabase (accountsToTrack db) (blocks db) (transactions db) (balances db) t.

(** The query [getLatestBlock] builds; [sortBy] returns a promise of the
    sorted array. *)
Definition latestBlockQuery (db : ChainDatabase) (network : Network.t) (now : Z)
  : JSValue EIP1559Block.t :=
  Dexie.sortBy EIP1559Block.timestamp
    (Dexie.reverse
       (Dexie.where_above blocks_name_timestamp
          (Network.name network, now - 60 * 60 * 24) (blocks db))).

(** [return this.blocks.where(..).above(..).reverse().sortBy("timestamp")[0]]:
    element [0] is read from the value [sortBy] returns. *)
Definition getLatestBlock (db : ChainDatabase) (network : Network.t) (now : Z)
  : JSValue EIP1559Block.t :=
  async_return (js_get_index (latestBlockQuery db network now) 0).

Definition getTransaction (db : ChainDatabase) (network : Network.t) (txHash : string)
  : JSValue Transaction.t :=
  async_return
    (js_or
       (js_get_index
          (await (Dexie.collection_toArray
                    (Dexie.where_equals (txHash, Network.name network) (transactions db))))
          0)
       JSNull).

(** [{ blockHeight: tx.blockHeight, blockHash: tx.blockHash }] applied to a
    stored row. *)
Definition modify_block_association (tx : AnyEVMTransaction.t) (row : Transaction.t)
  : Transaction.t :=
  let old := Transaction.tx row in
  Transaction.mk
    (AnyEVMTransaction.mk
       (AnyEVMTransaction.hash old) (AnyEVMTransaction.from old)
       (AnyEVMTransaction.to old) (AnyEVMTransaction.nonce old)
       (AnyEVMTransaction.blockHash tx) (AnyEVMTransaction.blockHeight tx)
       (AnyEVMTransaction.network old) (AnyEVMTransaction.extra old))
    (Transaction.dataSource row) (Transaction.firstSeen row).

Definition addOrUpdateTransaction (tx : AnyEVMTransaction.t) (dataSource : DataSource)
  (now : Z) (db : ChainDatabase) : ChainDatabase * Dexie.Settled :=
  let scope (txs : gmap (string * string) Transaction.t) :=
    let key := (AnyEVMTransaction.hash tx, Network.name (AnyEVMTransaction.network tx)) in
    let existingTx := Dexie.get key txs in
    match existingTx with
    | Some _ => (Dexie.modify_equals key (modify_block_association tx) txs, [])
    | None => (Dexie.put transactions_keyPath (Transaction.mk tx dataSource now) txs, [])
    end in
  let '(txs', r) := Dexie.transaction scope (transactions db) in
  (with_transactions db txs', r).

Definition balance_matches (account : string) (network : Network.t) (asset : FungibleAsset.t)
  (balance : AccountBalance.t) : bool :=
  String.eqb (AccountBalance.account balance) account
  && String.eqb (FungibleAsset.symbol (AssetAmount.asset (AccountBalance.assetAmount balance)))
                (FungibleAsset.symbol asset)
  && String.eqb (Network.name (AccountBalance.network balance)) (Network.name network).

Definition getLatestAccountBalance (db : ChainDatabase) (account : string)
  (network : Network.t) (asset : FungibleAsset.t) (now : Z) : JSValue AccountBalance.t :=
  let balanceCandidates :=
    await (Dexie.sortBy AccountBalance.retrievedAt
             (Dexie.reverse
                (Dexie.filter (balance_matches account network asset)
                   (Dexie.where_above AccountBalance.retrievedAt
                      (now - 7 * 24 * 60 * 60 * 1000) (balances db))))) in
  async_return
    (if js_length balanceCandidates >? 0 then js_get_index balanceCandidates 0 else JSNull).

Definition addAccountToTrack (accountNetwork : AccountNetwork.t) (db : ChainDatabase)
  : ChainDatabase * Dexie.Settled :=
  (with_accountsToTrack db
     (Dexie.put accountsToTrack_keyPath accountNetwork (accountsToTrack db)),
   Dexie.Fulfilled).

(** The [Set] is given by its members in the order [[...accountAndNetworks]]
    yields them. Neither operation of the scope is awaited or has a
    handler. *)
Definition setAccountsToTrack (accountAndNetworks : list AccountNetwork.t)
  (db : ChainDatabase) : ChainDatabase * Dexie.Settled :=
  let scope (t : gmap (string * string * string) AccountNetwork.t) :=
    let t1 := Dexie.clear t in
    let '(t2, e) := Dexie.bulkAdd accountsToTrack_keyPath accountAndNetworks t1 in
    (t2, option_list e) in
  let '(t', r) := Dexie.transaction scope (accountsToTrack db) in
  (with_accountsToTrack db t', r).

Definition getAccountsToTrack (db : ChainDatabase) : JSValue AccountNetwork.t :=
  async_return (Dexie.toArray (accountsToTrack db)).

(** [getDB] opens the database of the fixed name ["tally/chain"]: the
    stored tables are the ones the previous opening left. *)
Definition getDB (stored : ChainDatabase) : ChainDatabase := stored.

Definition getOrCreateDB (now : Z) (stored : ChainDatabase) : ChainDatabase * Dexie.Settled :=
  let db := getDB stored in
  let numMigrations := Dexie.count (migrations db) in
  if decide (numMigrations = 0%nat) then
    let scope (m : gmap Z Migration.t) :=
      let '(m', e) := Dexie.add Migration.id (Migration.mk 0 now) m in
      (m', option_list e) in
    let '(m', r) := Dexie.transaction scope (migrations db) in
    (with_migrations db m', r)
  else (db, Dexie.Fulfilled).

(** ** Vocabulary of the properties *)

(** A row is stored when some primary key maps to it. *)
Definition stored_balance (db : ChainDatabase) (r : AccountBalance.t) : Prop :=
  ∃ id, balances db !! id = Some r.

Definition seven_days : Z := 7 * 24 * 60 * 60 * 1000.

(** The rows [getLatestAccountBalance] chooses from: retrieved later than
    seven days before [now], of the account, asset symbol and network name
    asked for. *)
Definition fresh_balance_for (account : string) (network : Network.t)
  (asset : FungibleAsset.t) (now : Z) (r : AccountBalance.t) : Prop :=
  now - seven_days < AccountBalance.retrievedAt r
  ∧ AccountBalance.account r = account
  ∧ FungibleAsset.symbol (AssetAmount.asset (AccountBalance.assetAmount r))
    = FungibleAsset.symbol asset
  ∧ Network.name (AccountBalance.network r) = Network.name network.

(** The sorted array [getLatestAccountBalance] awaits. *)
Definition balance_candidates (db : ChainDatabase) (account : string)
  (network : Network.t) (asset : FungibleAsset.t) (now : Z) : list AccountBalance.t :=
  Dexie.sortBy_rows AccountBalance.retrievedAt
    (Dexie.reverse
       (Dexie.filter (balance_matches account network asset)
          (Dexie.where_above AccountBalance.retrievedAt
             (now - 7 * 24 * 60 * 60 * 1000) (balances db)))).

(** A block of [network] whose time stamp lies in the [window] that ends at
    [now]. *)
Definition block_in_window (window : Z) (network : Network.t) (now : Z)
  (b : EIP1559Block.t) : Prop :=
  Network.name (EIP1559Block.network b) = Network.name network
  ∧ now - window < EIP1559Block.timestamp b ≤ now.

Definition stored_block (db : ChainDatabase) (b : EIP1559Block.t) : Prop :=
  ∃ k, blocks db !! k = Some b.

(** Twenty-four hours, in the milliseconds of [Date.now()], and the span
    [getLatestBlock] subtracts from [Date.now()]. *)
Definition one_day : Z := 24 * 60 * 60 * 1000.
Definition latest_block_span : Z := 60 * 60 * 24.

(** The array a settled read resolves to holds exactly the given rows. *)
Definition resolves_to_members {T} (v : JSValue T) (members : list T) : Prop :=
  ∃ arr, v = JSPromise (JSArray arr) ∧ arr ≡ₚ members.

(** The store opened once for each reading of the clock, in turn. *)
Fixpoint open_repeatedly (nows : list Z) (stored : ChainDatabase) : ChainDatabase :=
  match nows with
  | [] => stored
  | now :: nows' => open_repeatedly nows' (fst (getOrCreateDB now stored))
  end.

(** ** Sample data *)

Definition empty_db : ChainDatabase := mkChainDatabase ∅ ∅ ∅ ∅ ∅.

Definition ethereum : Network.t := Network.mk "EVM" "1" "Ethereum".
Definition goerli : Network.t := Network.mk "EVM" "5" "Goerli".
Definition sample_now : Z := 1700000000000.

Definition sample_block (h parent : string) (height ts : Z) : EIP1559Block.t :=
  EIP1559Block.mk h parent height ts ethereum.

Definition block_t1 := sample_block "0xa1" "0xa0" 101 (sample_now - 3000).
Definition block_t2 := sample_block "0xa2" "0xa1" 102 (sample_now - 2000).
Definition block_t3 := sample_block "0xa3" "0xa2" 103 (sample_now - 1000).

Definition three_blocks_db : ChainDatabase :=
  mkChainDatabase ∅
    (Dexie.put blocks_keyPath block_t2
       (Dexie.put blocks_keyPath block_t3
          (Dexie.put blocks_keyPath block_t1 ∅)))
    ∅ ∅ ∅.

Definition goerli_block : EIP1559Block.t :=
  EIP1559Block.mk "0xb1" "0xb0" 7 (sample_now - 90000000) goerli.

Definition goerli_block_db : ChainDatabase :=
  mkChainDatabase ∅ (Dexie.put blocks_keyPath goerli_block ∅) ∅ ∅ ∅.

Definition eth : FungibleAsset.t := FungibleAsset.mk "ETH" [("decimals", "18")].

Definition sample_balance (amount height retrievedAt : Z) : AccountBalance.t :=
  AccountBalance.mk "0xabc" ethereum (AssetAmount.mk amount eth) height retrievedAt.

Definition balance_8_days_ago := sample_balance 5 90 (sample_now - 8 * 24 * 60 * 60 * 1000).
Definition balance_6_days_ago := sample_balance 7 95 (sample_now - 6 * 24 * 60 * 60 * 1000).

Definition two_balances_db : ChainDatabase :=
  mkChainDatabase ∅ ∅ ∅ (<[2 := balance_6_days_ago]> (<[1 := balance_8_days_ago]> ∅)) ∅.

Definition pending_tx : AnyEVMTransaction.t :=
  AnyEVMTransaction.mk "0xA" "0xabc" "0xdef" 4 None None ethereum [("value", "10")].

Definition confirmed_tx : AnyEVMTransaction.t :=
  AnyEVMTransaction.mk "0xA" "0xabc" "0xdef" 4 (Some "0xB") (Some 100) ethereum [("value", "10")].

Definition pending_db : ChainDatabase :=
  fst (addOrUpdateTransaction pending_tx local sample_now empty_db).

(** Two watch targets that differ in the family of the network only, and a
    third on another network. *)
Definition entry_evm : AccountNetwork.t := AccountNetwork.mk "0xabc" ethereum.
Definition entry_btc : AccountNetwork.t :=
  AccountNetwork.mk "0xabc" (Network.mk "BTC" "1" "Ethereum").
Definition entry_goerli : AccountNetwork.t := AccountNetwork.mk "0xabc" goerli.

Definition tracking_goerli_db : ChainDatabase :=
  fst (addAccountToTrack entry_goerli empty_db).

(** ** Vocabulary of the further properties *)

(** Every row is stored under the primary key its own fields give. *)
Definition well_keyed {K V} `{Countable K} (keyPath : V → K) (t : gmap K V) : Prop :=
  ∀ k r, t !! k = Some r → keyPath r = k.

(** The key [addOrUpdateTransaction] computes from its argument. *)
Definition transaction_key (tx : AnyEVMTransaction.t) : string * string :=
  (AnyEVMTransaction.hash tx, Network.name (AnyEVMTransaction.network tx)).

(** What a call of [addOrUpdateTransaction] leaves under the key of [tx],
    by what was stored there before. *)
Definition upsert_row (tx : AnyEVMTransaction.t) (dataSource : DataSource) (now : Z)
  (existing : option Transaction.t) : option Transaction.t :=
  Some match existing with
       | Some row => modify_block_association tx row
       | None => Transaction.mk tx dataSource now
       end.

(** A call of [addOrUpdateTransaction] with the clock reading it sees, and
    a run of such calls. *)
Record TransactionCall := mkTransactionCall {
  call_tx : AnyEVMTransaction.t;
  call_dataSource : DataSource;
  call_now : Z
}.

Definition addOrUpdateTransactions (calls : list TransactionCall) (db : ChainDatabase)
  : ChainDatabase :=
  foldl (fun db c =>
           fst (addOrUpdateTransaction (call_tx c) (call_dataSource c) (call_now c) db))
        db calls.

(** The two writers of the registry, and a run of calls of them. *)
Inductive RegistryCall :=
| AddAccountToTrack (accountNetwork : AccountNetwork.t)
| SetAccountsToTrack (accountAndNetworks : list AccountNetwork.t).

Definition registry_call (c : RegistryCall) (db : ChainDatabase) : ChainDatabase :=
  match c with
  | AddAccountToTrack e => fst (addAccountToTrack e db)
  | SetAccountsToTrack es => fst (setAccountsToTrack es db)
  end.

Definition registry_calls (cs : list RegistryCall) (db : ChainDatabase) : ChainDatabase :=
  foldl (fun db c => registry_call c db) db cs.

(** The stored transaction fields that [addOrUpdateTransaction] never
    rewrites. *)
Definition same_identity (row row' : Transaction.t) : Prop :=
  AnyEVMTransaction.hash (Transaction.tx row') = AnyEVMTransaction.hash (Transaction.tx row)
  ∧ AnyEVMTransaction.from (Transaction.tx row') = AnyEVMTransaction.from (Transaction.tx row)
  ∧ AnyEVMTransaction.to (Transaction.tx row') = AnyEVMTransaction.to (Transaction.tx row)
  ∧ AnyEVMTransaction.nonce (Transaction.tx row') = AnyEVMTransaction.nonce (Transaction.tx row)
  ∧ AnyEVMTransaction.network (Transaction.tx row')
    = AnyEVMTransaction.network (Transaction.tx row)
  ∧ AnyEVMTransaction.extra (Transaction.tx row') = AnyEVMTransaction.extra (Transaction.tx row)
  ∧ Transaction.firstSeen row' = Transaction.firstSeen row
  ∧ Transaction.dataSource row' = Transaction.dataSource row.

Definition other_tx : AnyEVMTransaction.t :=
  AnyEVMTransaction.mk "0xC" "0xdef" "0xabc" 9 None None goerli [].

(** The confirmation of [pending_tx] as another client would report it:
    same hash and network, other fields differing. *)
Definition confirmed_elsewhere_tx : AnyEVMTransaction.t :=
  AnyEVMTransaction.mk "0xA" "0xABC" "0xDEF" 4 (Some "0xB") (Some 100)
                       (Network.mk "EVM" "0x1" "Ethereum") [].

Definition sample_calls : list TransactionCall :=
  [ mkTransactionCall confirmed_tx alchemy (sample_now + 60000);
    mkTransactionCall other_tx local (sample_now + 70000);
    mkTransactionCall pending_tx alchemy (sample_now + 80000) ].

Definition sample_registry_calls : list RegistryCall :=
  [ AddAccountToTrack entry_evm;
    SetAccountsToTrack [entry_goerli; entry_btc];
    AddAccountToTrack entry_evm;
    SetAccountsToTrack [entry_evm; entry_btc] ].

(** The order of the index [retrievedAt] of [balances] on (primary key, row)
    pairs: by [retrievedAt], and by primary key among rows retrieved at the
    same time. *)
Definition balance_index_le (p q : Z * AccountBalance.t) : Prop :=
  AccountBalance.retrievedAt (snd p) < AccountBalance.retrievedAt (snd q)
  ∨ (AccountBalance.retrievedAt (snd p) = AccountBalance.retrievedAt (snd q)
     ∧ fst p ≤ fst q).

(** Two balances retrieved at the same time, six days ago. *)
Definition tied_balances_db : ChainDatabase :=
  mkChainDatabase ∅ ∅ ∅
    (<[3 := sample_balance 1 96 (sample_now - 6 * 24 * 60 * 60 * 1000)]>
       (<[9 := sample_balance 2 97 (sample_now - 6 * 24 * 60 * 60 * 1000)]>
          (<[4 := balance_8_days_ago]> ∅)))
    ∅.

(** ** The seven-day window, closed at the current time *)

(** Retrieved within the last seven days: later than seven days before
    [now] and not later than [now]. *)
Definition within_last_seven_days (now : Z) (r : AccountBalance.t) : Prop :=
  now - seven_days < AccountBalance.retrievedAt r ≤ now.

(** The answer that is the latest of the stored rows retrieved within the
    last seven days that match the account, the asset symbol and the network
    name, or [null] when there is no such row. *)
Definition latest_within_seven_days (db : ChainDatabase) (account : string)
  (network : Network.t) (asset : FungibleAsset.t) (now : Z)
  (answer : JSValue AccountBalance.t) : Prop :=
  let candidate r :=
    stored_balance db r
    ∧ within_last_seven_days now r
    ∧ AccountBalance.account r = account
    ∧ FungibleAsset.symbol (AssetAmount.asset (AccountBalance.assetAmount r))
      = FungibleAsset.symbol asset
    ∧ Network.name (AccountBalance.network r) = Network.name network in
  (∃ r, answer = JSPromise (JSRecord r)
        ∧ candidate r
        ∧ ∀ r', candidate r' → AccountBalance.retrievedAt r' ≤ AccountBalance.retrievedAt r)
  ∨ (answer = JSPromise JSNull ∧ ∀ r', ¬ candidate r').

(** A balance stamped a hundred days after [sample_now], beside one
    retrieved six days before it. *)
Definition balance_stamped_ahead : AccountBalance.t :=
  sample_balance 9 120 (sample_now + 100 * 24 * 60 * 60 * 1000).

Definition stamped_ahead_db : ChainDatabase :=
  mkChainDatabase ∅ ∅ ∅
    (<[2 := balance_stamped_ahead]> (<[1 := balance_6_days_ago]> ∅)) ∅.

(** A stored transaction without the time it was first seen. *)
Definition forget_firstSeen (row : Transaction.t) : AnyEVMTransaction.t * DataSource :=
  (Transaction.tx row, Transaction.dataSource row).

(** ** Sorting *)

Section array_sort_facts.
Context {A : Type} (cmp : A → A → Z).

Lemma insert_by_Permutation x l : insert_by cmp x l ≡ₚ x :: l.
Proof.
  induction l as [|y l IH]; simpl; [done|].
  destruct (cmp x y <=? 0); [done|].
  rewrite IH. apply Permutation_swap.
Qed.

Lemma array_sort_Permutation l : array_sort cmp l ≡ₚ l.
Proof.
  induction l as [|x l IH]; simpl; [done|].
  rewrite insert_by_Permutation. by rewrite IH.
Qed.

Lemma elem_of_array_sort x l : x ∈ array_sort cmp l ↔ x ∈ l.
Proof. by rewrite array_sort_Permutation. Qed.

Lemma array_sort_nil_inv l : array_sort cmp l = [] → l = [].
Proof.
  intros E. apply Permutation_nil_r. rewrite <- E.
  symmetry. apply array_sort_Permutation.
Qed.

End array_sort_facts.

(** With the comparator of a reversed collection the first element of the
    sorted array carries the greatest sort key. *)
Lemma sorter_descending {V} (getval : V → Z) a b :
  (Dexie.sorter (-1) getval a b <=? 0) = true ↔ getval b ≤ getval a.
Proof.
  unfold Dexie.sorter.
  destruct (getval a <? getval b) eqn:Hlt; [apply Z.ltb_lt in Hlt|apply Z.ltb_ge in Hlt].
  - simpl. split; [discriminate|intros ?; exfalso; lia].
  - destruct (getval a >? getval b) eqn:Hgt; simpl; split; auto.
Qed.

Lemma array_sort_descending_head {V} (getval : V → Z) l x rest :
  array_sort (Dexie.sorter (-1) getval) l = x :: rest →
  ∀ y, y ∈ l → getval y ≤ getval x.
Proof.
  revert x rest. induction l as [|a l IH]; intros x rest E y Hy.
  - by apply elem_of_nil in Hy.
  - simpl in E.
    destruct (array_sort (Dexie.sorter (-1) getval) l) as [|z zs] eqn:Hs.
    + apply array_sort_nil_inv in Hs. subst l. simpl in E.
      injection E as <- _. apply list_elem_of_singleton in Hy. by subst.
    + simpl in E.
      destruct (Dexie.sorter (-1) getval a z <=? 0) eqn:Hc.
      * apply sorter_descending in Hc. injection E as <- _.
        apply elem_of_cons in Hy as [->|Hy]; [lia|].
        specialize (IH z zs eq_refl y Hy). lia.
      * injection E as <- _.
        assert (¬ getval z ≤ getval a) as Hn.
        { intros Hle. apply sorter_descending in Hle. congruence. }
        apply elem_of_cons in Hy as [->|Hy]; [lia|].
        exact (IH z zs eq_refl y Hy).
Qed.

(** ** Tables and collections *)

Section Table_facts.
Context {K : Type} `{Countable K} `{IDBKey K} {V : Type}.

Lemma elem_of_index_rows {I} `{IDBKey I} (idx : V → I) (t : gmap K V) r :
  r ∈ Dexie.index_rows idx t ↔ ∃ k, t !! k = Some r.
Proof.
  unfold Dexie.index_rows. rewrite list_elem_of_fmap. split.
  - intros [[k v] [-> Hin]]. apply elem_of_array_sort in Hin.
    exists k. by apply elem_of_map_to_list.
  - intros [k Hk]. exists (k, r). split; [done|].
    apply elem_of_array_sort. by apply elem_of_map_to_list.
Qed.

Lemma primary_rows_Permutation (t : gmap K V) :
  Dexie.primary_rows t ≡ₚ snd <$> map_to_list t.
Proof. unfold Dexie.primary_rows. by rewrite array_sort_Permutation. Qed.

End Table_facts.

Lemma elem_of_iterate {V} (c : Dexie.Collection V) r :
  r ∈ Dexie.iterate c ↔ r ∈ Dexie.ctx_rows c ∧ Dexie.ctx_filter c r = true.
Proof.
  unfold Dexie.iterate.
  rewrite !list_elem_of_In.
  destruct (Dexie.ctx_dir c); rewrite <- ?in_rev; apply filter_In.
Qed.

Lemma key_above_Z (z lower : Z) : key_above z lower = true ↔ lower < z.
Proof.
  unfold key_above, key_compare, IDBKey_Z.
  destruct (Z.compare_spec z lower); split; intros ?; try done; lia.
Qed.

(** ** The block tracker *)

(** [sortBy] hands back a promise, and reading element [0] of a promise
    yields [undefined]. *)
Lemma getLatestBlock_reads_promise db network now :
  js_get_index (latestBlockQuery db network now) 0 = JSUndefined.
Proof. reflexivity. Qed.

(** C10: for every store and every network [getLatestBlock] resolves to
    [undefined]: element [0] is read from the promise [sortBy] returns, not
    from the array it resolves to, so no stored block header is ever
    returned, whatever the blocks table holds. *)
Theorem getLatestBlock_resolves_undefined (db : ChainDatabase) (network : Network.t) (now : Z) :
  getLatestBlock db network now = JSPromise JSUndefined.
Proof.
  unfold getLatestBlock. by rewrite getLatestBlock_reads_promise.
Qed.

(** The rows of the array the query resolves to: the stored blocks whose
    index key [[network.name, timestamp]] is above the lower bound. *)
Lemma elem_of_latestBlockQuery db network now b :
  (∃ arr, await (latestBlockQuery db network now) = JSArray arr ∧ b ∈ arr) ↔
  stored_block db b
  ∧ key_above (blocks_name_timestamp b) (Network.name network, now - 60 * 60 * 24) = true.
Proof.
  unfold latestBlockQuery, Dexie.sortBy, Dexie.sortBy_rows. simpl. split.
  - intros (arr & [= <-] & Hb). revert Hb.
    rewrite elem_of_array_sort, elem_of_iterate. simpl.
    rewrite list_elem_of_In, filter_In, <- list_elem_of_In, elem_of_index_rows.
    unfold stored_block. tauto.
  - intros [Hst Hab]. eexists. split; [reflexivity|].
    rewrite elem_of_array_sort, elem_of_iterate. simpl.
    rewrite list_elem_of_In, filter_In, <- list_elem_of_In, elem_of_index_rows.
    unfold stored_block in Hst. tauto.
Qed.

Lemma string_compare_refl (s : string) : String.compare s s = Eq.
Proof.
  pose proof (String.compare_antisym s s) as Hs.
  destruct (String.compare s s); simpl in Hs; congruence.
Qed.

(** The lower bound is [Date.now()], in milliseconds, less 86400: a block
    of the queried network whose time stamp counts seconds and does not lie
    in the future is below it (at any time later than a minute and a half
    after the epoch), so the range does not select it. *)
Lemma latestBlockQuery_excludes_epoch_seconds network now b :
  Network.name (EIP1559Block.network b) = Network.name network →
  1000 * EIP1559Block.timestamp b ≤ now →
  86487 ≤ now →
  key_above (blocks_name_timestamp b) (Network.name network, now - 60 * 60 * 24) = false.
Proof.
  intros Hname Hsec Hnow.
  unfold key_above, key_compare, IDBKey_pair, blocks_name_timestamp. simpl.
  rewrite Hname. unfold key_compare at 1, IDBKey_string. rewrite string_compare_refl.
  unfold key_compare, IDBKey_Z.
  destruct (Z.compare_spec (EIP1559Block.timestamp b) (now - 60 * 60 * 24)); try done; lia.
Qed.

(** The range has no upper bound: it also selects the blocks of a network
    whose name sorts after the queried one. *)
Lemma latestBlockQuery_admits_later_names :
  await (latestBlockQuery goerli_block_db ethereum sample_now) = JSArray [goerli_block].
Proof. by vm_compute. Qed.

(** C1: on a store holding three blocks of one network with time stamps
    t1 < t2 < t3, all within the last 24 hours (and later than the cutoff
    the code computes), the sorted array the query resolves to starts with
    the block of t3, but [getLatestBlock] resolves to [undefined]. *)
Theorem getLatestBlock_three_blocks :
  (stored_block three_blocks_db block_t1
   ∧ stored_block three_blocks_db block_t2
   ∧ stored_block three_blocks_db block_t3)
  ∧ EIP1559Block.timestamp block_t1 < EIP1559Block.timestamp block_t2
    < EIP1559Block.timestamp block_t3
  ∧ Forall (fun b => block_in_window one_day ethereum sample_now b
                     ∧ block_in_window latest_block_span ethereum sample_now b)
           [block_t1; block_t2; block_t3]
  ∧ await (latestBlockQuery three_blocks_db ethereum sample_now)
    = JSArray [block_t3; block_t2; block_t1]
  ∧ getLatestBlock three_blocks_db ethereum sample_now = JSPromise JSUndefined.
Proof.
  split.
  { repeat split; [exists ("0xa1", "Ethereum")|exists ("0xa2", "Ethereum")
                  |exists ("0xa3", "Ethereum")]; by vm_compute. }
  split; [by vm_compute|].
  split.
  { repeat constructor; by vm_compute. }
  split; by vm_compute.
Qed.

(** C8: when no stored block of the network lies in the recency window
    (whatever its length; in particular when no block is stored at all),
    [getLatestBlock] resolves to [undefined], a fulfilled promise and not a
    rejection. *)
Theorem getLatestBlock_no_recent_block (window : Z) (db : ChainDatabase)
  (network : Network.t) (now : Z) :
  (∀ b, stored_block db b → ¬ block_in_window window network now b) →
  getLatestBlock db network now = JSPromise JSUndefined.
Proof. intros _. unfold getLatestBlock. by rewrite getLatestBlock_reads_promise. Qed.

Lemma getLatestBlock_no_recent_block_witness :
  getLatestBlock empty_db ethereum sample_now = JSPromise JSUndefined.
Proof.
  apply (getLatestBlock_no_recent_block one_day).
  intros b [k Hk]. simpl in Hk. rewrite lookup_empty in Hk. discriminate.
Defined.

(** ** The balance tracker *)

Lemma getLatestAccountBalance_candidates db account network asset now :
  getLatestAccountBalance db account network asset now
  = JSPromise match balance_candidates db account network asset now with
              | [] => JSNull
              | r :: _ => JSRecord r
              end.
Proof.
  unfold getLatestAccountBalance, Dexie.sortBy, await.
  fold (balance_candidates db account network asset now).
  by destruct (balance_candidates db account network asset now).
Qed.

Lemma balance_matches_true account network asset r :
  balance_matches account network asset r = true ↔
  AccountBalance.account r = account
  ∧ FungibleAsset.symbol (AssetAmount.asset (AccountBalance.assetAmount r))
    = FungibleAsset.symbol asset
  ∧ Network.name (AccountBalance.network r) = Network.name network.
Proof.
  unfold balance_matches. rewrite !andb_true_iff, !String.eqb_eq. tauto.
Qed.

Lemma elem_of_balance_candidates db account network asset now r :
  r ∈ balance_candidates db account network asset now ↔
  stored_balance db r ∧ fresh_balance_for account network asset now r.
Proof.
  unfold balance_candidates, Dexie.sortBy_rows.
  rewrite elem_of_array_sort, elem_of_iterate. simpl.
  rewrite list_elem_of_In, filter_In, <- list_elem_of_In.
  rewrite elem_of_index_rows, key_above_Z, balance_matches_true.
  unfold stored_balance, fresh_balance_for, seven_days. tauto.
Qed.

Lemma balance_candidates_head db account network asset now r rest :
  balance_candidates db account network asset now = r :: rest →
  ∀ r', r' ∈ balance_candidates db account network asset now →
        AccountBalance.retrievedAt r' ≤ AccountBalance.retrievedAt r.
Proof.
  intros E r' Hr'.
  assert (r' ∈ Dexie.iterate
            (Dexie.reverse
               (Dexie.filter (balance_matches account network asset)
                  (Dexie.where_above AccountBalance.retrievedAt
                     (now - 7 * 24 * 60 * 60 * 1000) (balances db))))) as Hin.
  { revert Hr'. unfold balance_candidates, Dexie.sortBy_rows.
    by rewrite elem_of_array_sort. }
  exact (array_sort_descending_head _ _ _ _ E r' Hin).
Qed.

(** C5, the claim as stated fails: the store holds a matching balance
    retrieved six days ago and a matching balance stamped a hundred days
    after the current time. The second is not within the last seven days,
    yet [getLatestAccountBalance] resolves to it and not to the first: the
    range [above(Date.now() - 7 days)] has no upper bound. *)
Lemma getLatestAccountBalance_stamped_ahead :
  stored_balance stamped_ahead_db balance_6_days_ago
  ∧ within_last_seven_days sample_now balance_6_days_ago
  ∧ stored_balance stamped_ahead_db balance_stamped_ahead
  ∧ ¬ within_last_seven_days sample_now balance_stamped_ahead
  ∧ getLatestAccountBalance stamped_ahead_db "0xabc" ethereum eth sample_now
    = JSPromise (JSRecord balance_stamped_ahead)
  ∧ ¬ latest_within_seven_days stamped_ahead_db "0xabc" ethereum eth sample_now
        (getLatestAccountBalance stamped_ahead_db "0xabc" ethereum eth sample_now).
Proof.
  assert (getLatestAccountBalance stamped_ahead_db "0xabc" ethereum eth sample_now
          = JSPromise (JSRecord balance_stamped_ahead)) as Hanswer by (vm_compute; reflexivity).
  assert (¬ within_last_seven_days sample_now balance_stamped_ahead) as Hahead.
  { unfold within_last_seven_days, seven_days, balance_stamped_ahead, sample_now. simpl. lia. }
  split; [by exists 1|].
  split.
  { unfold within_last_seven_days, seven_days, balance_6_days_ago, sample_now. simpl. lia. }
  split; [by exists 2|].
  split; [exact Hahead|]. split; [exact Hanswer|].
  rewrite Hanswer. intros [(r & [= <-] & (_ & Hwithin & _) & _)|[[=] _]].
  by apply Hahead.
Qed.

(** C5, amended: [getLatestAccountBalance] resolves to a stored row
    retrieved later than seven days before the current time (a row stamped
    after the current time included) that matches the account, the asset
    symbol and the network name, and no such row was retrieved later; it
    resolves to [null] exactly when no stored row qualifies. A row retrieved
    eight days ago is never the answer; a stored matching row retrieved six
    days ago is among the rows chosen from, so the answer is a row at least
    as recent. *)
Theorem getLatestAccountBalance_latest_fresh (db : ChainDatabase) (account : string)
  (network : Network.t) (asset : FungibleAsset.t) (now : Z) :
  let answer := getLatestAccountBalance db account network asset now in
  let qualifies r := stored_balance db r ∧ fresh_balance_for account network asset now r in
  ((∃ r, answer = JSPromise (JSRecord r) ∧ qualifies r
         ∧ ∀ r', qualifies r' → AccountBalance.retrievedAt r' ≤ AccountBalance.retrievedAt r)
   ∨ (answer = JSPromise JSNull ∧ ∀ r', ¬ qualifies r'))
  ∧ (∀ r, AccountBalance.retrievedAt r = now - 8 * 24 * 60 * 60 * 1000 →
          ¬ qualifies r ∧ answer ≠ JSPromise (JSRecord r))
  ∧ (∀ r, AccountBalance.retrievedAt r = now - 6 * 24 * 60 * 60 * 1000 →
          stored_balance db r →
          balance_matches account network asset r = true →
          qualifies r
          ∧ ∃ r', answer = JSPromise (JSRecord r')
                  ∧ AccountBalance.retrievedAt r ≤ AccountBalance.retrievedAt r').
Proof.
  intros answer qualifies.
  assert (∀ r, r ∈ balance_candidates db account network asset now ↔ qualifies r) as Hmem.
  { intros r. apply elem_of_balance_candidates. }
  assert (answer = JSPromise match balance_candidates db account network asset now with
                             | [] => JSNull
                             | r :: _ => JSRecord r
                             end) as Hans.
  { apply getLatestAccountBalance_candidates. }
  pose proof (balance_candidates_head db account network asset now) as Hhead.
  destruct (balance_candidates db account network asset now) as [|r0 rest] eqn:Hc.
  - split; [|split].
    + right. split; [done|]. intros r' Hq. apply Hmem in Hq. by apply elem_of_nil in Hq.
    + intros r Hr. split.
      * intros [_ [Hfresh _]]. unfold seven_days in Hfresh. lia.
      * rewrite Hans. discriminate.
    + intros r Hr Hst Hm. exfalso.
      assert (qualifies r) as Hq.
      { split; [done|]. apply balance_matches_true in Hm.
        unfold fresh_balance_for, seven_days. split; [lia|done]. }
      apply Hmem in Hq. by apply elem_of_nil in Hq.
  - assert (qualifies r0) as Hq0 by (apply Hmem; left).
    assert (∀ r', qualifies r' → AccountBalance.retrievedAt r' ≤ AccountBalance.retrievedAt r0)
      as Hmax.
    { intros r' Hq. apply (Hhead r0 rest eq_refl). by apply Hmem. }
    split; [|split].
    + left. exists r0. done.
    + intros r Hr.
      assert (¬ qualifies r) as Hnq.
      { intros [_ [Hfresh _]]. unfold seven_days in Hfresh. lia. }
      split; [done|]. rewrite Hans. intros [= ->]. done.
    + intros r Hr Hst Hm.
      assert (qualifies r) as Hq.
      { split; [done|]. apply balance_matches_true in Hm.
        unfold fresh_balance_for, seven_days. split; [lia|done]. }
      split; [done|]. exists r0. split; [done|]. by apply Hmax.
Qed.

Lemma getLatestAccountBalance_latest_fresh_witness :
  ∃ r', getLatestAccountBalance two_balances_db "0xabc" ethereum eth sample_now
        = JSPromise (JSRecord r')
        ∧ AccountBalance.retrievedAt balance_6_days_ago ≤ AccountBalance.retrievedAt r'.
Proof.
  refine (proj2 (proj2 (proj2 (getLatestAccountBalance_latest_fresh
                                 two_balances_db "0xabc" ethereum eth sample_now))
                   balance_6_days_ago eq_refl _ eq_refl)).
  exists 2. reflexivity.
Defined.

(** ** The transaction tracker *)

Lemma modify_block_association_idemp tx row :
  modify_block_association tx (modify_block_association tx row)
  = modify_block_association tx row.
Proof. reflexivity. Qed.

Lemma modify_block_association_inserted tx dataSource now :
  modify_block_association tx (Transaction.mk tx dataSource now)
  = Transaction.mk tx dataSource now.
Proof. by destruct tx. Qed.

Lemma with_transactions_id db : with_transactions db (transactions db) = db.
Proof. by destruct db. Qed.

(** C2: when a row is stored under the key (hash, network name) of [tx],
    [addOrUpdateTransaction] leaves under that key a row whose block height
    and block hash are those of [tx] and whose other fields, [firstSeen] and
    [dataSource] among them, are those of the row stored before; the rows
    under other keys are untouched. *)
Theorem addOrUpdateTransaction_merge (tx : AnyEVMTransaction.t) (dataSource : DataSource)
  (now : Z) (db : ChainDatabase) (row : Transaction.t) :
  let key := (AnyEVMTransaction.hash tx, Network.name (AnyEVMTransaction.network tx)) in
  transactions db !! key = Some row →
  snd (addOrUpdateTransaction tx dataSource now db) = Dexie.Fulfilled
  ∧ (∃ row', transactions (fst (addOrUpdateTransaction tx dataSource now db)) !! key = Some row'
       ∧ AnyEVMTransaction.blockHeight (Transaction.tx row') = AnyEVMTransaction.blockHeight tx
       ∧ AnyEVMTransaction.blockHash (Transaction.tx row') = AnyEVMTransaction.blockHash tx
       ∧ AnyEVMTransaction.hash (Transaction.tx row') = AnyEVMTransaction.hash (Transaction.tx row)
       ∧ AnyEVMTransaction.from (Transaction.tx row') = AnyEVMTransaction.from (Transaction.tx row)
       ∧ AnyEVMTransaction.to (Transaction.tx row') = AnyEVMTransaction.to (Transaction.tx row)
       ∧ AnyEVMTransaction.nonce (Transaction.tx row') = AnyEVMTransaction.nonce (Transaction.tx row)
       ∧ AnyEVMTransaction.network (Transaction.tx row')
         = AnyEVMTransaction.network (Transaction.tx row)
       ∧ AnyEVMTransaction.extra (Transaction.tx row') = AnyEVMTransaction.extra (Transaction.tx row)
       ∧ Transaction.firstSeen row' = Transaction.firstSeen row
       ∧ Transaction.dataSource row' = Transaction.dataSource row)
  ∧ (∀ k, k ≠ key →
          transactions (fst (addOrUpdateTransaction tx dataSource now db)) !! k
          = transactions db !! k).
Proof.
  intros key Hrow.
  unfold addOrUpdateTransaction, Dexie.transaction, Dexie.get.
  fold key. rewrite Hrow. simpl.
  split; [done|]. split.
  - exists (modify_block_association tx row). split.
    + unfold Dexie.modify_equals. by rewrite lookup_alter_eq, Hrow.
    + by repeat split.
  - intros k Hk. unfold Dexie.modify_equals. by rewrite lookup_alter_ne.
Qed.

Lemma addOrUpdateTransaction_merge_witness :
  ∃ row', transactions (fst (addOrUpdateTransaction confirmed_tx alchemy (sample_now + 60000)
                               pending_db)) !! ("0xA", "Ethereum") = Some row'
       ∧ AnyEVMTransaction.blockHeight (Transaction.tx row') = Some 100
       ∧ AnyEVMTransaction.blockHash (Transaction.tx row') = Some "0xB"
       ∧ Transaction.firstSeen row' = sample_now
       ∧ Transaction.dataSource row' = local.
Proof.
  destruct (addOrUpdateTransaction_merge confirmed_tx alchemy (sample_now + 60000) pending_db
              (Transaction.mk pending_tx local sample_now))
    as (_ & (row' & Hrow' & Hheight & Hhash & _ & _ & _ & _ & _ & _ & Hseen & Hsrc) & _).
  { reflexivity. }
  exists row'. split; [exact Hrow'|].
  split; [exact Hheight|]. split; [exact Hhash|]. split; [exact Hseen|exact Hsrc].
Defined.

(** C3: a second [addOrUpdateTransaction] with the same transaction and
    data source leaves the store as the first one left it, whatever the
    clock reads at either call; both calls are fulfilled. *)
Theorem addOrUpdateTransaction_idempotent (tx : AnyEVMTransaction.t)
  (dataSource : DataSource) (now1 now2 : Z) (db : ChainDatabase) :
  let once := addOrUpdateTransaction tx dataSource now1 db in
  let twice := addOrUpdateTransaction tx dataSource now2 (fst once) in
  fst twice = fst once
  ∧ transactions (fst twice) = transactions (fst once)
  ∧ snd once = Dexie.Fulfilled ∧ snd twice = Dexie.Fulfilled.
Proof.
  simpl.
  assert (fst (addOrUpdateTransaction tx dataSource now2
                 (fst (addOrUpdateTransaction tx dataSource now1 db)))
          = fst (addOrUpdateTransaction tx dataSource now1 db)
          ∧ snd (addOrUpdateTransaction tx dataSource now1 db) = Dexie.Fulfilled
          ∧ snd (addOrUpdateTransaction tx dataSource now2
                   (fst (addOrUpdateTransaction tx dataSource now1 db))) = Dexie.Fulfilled)
    as (Hdb & H1 & H2).
  { unfold addOrUpdateTransaction, Dexie.transaction, Dexie.get, Dexie.modify_equals, Dexie.put.
    set (key := (AnyEVMTransaction.hash tx, Network.name (AnyEVMTransaction.network tx))).
    destruct (transactions db !! key) as [row|] eqn:Hrow; simpl.
    - rewrite lookup_alter_eq, Hrow. simpl. split; [|done].
      unfold with_transactions. simpl. f_equal.
      rewrite alter_alter_eq. apply alter_ext. intros r _. apply modify_block_association_idemp.
    - change (transactions_keyPath (Transaction.mk tx dataSource now1)) with key.
      rewrite lookup_insert_eq. simpl. split; [|done].
      unfold with_transactions. simpl. f_equal.
      rewrite alter_insert_eq. by rewrite modify_block_association_inserted. }
  rewrite Hdb. done.
Qed.

(** C4: when no row is stored under the key of [tx], exactly one row is
    added: it holds the fields of [tx], [firstSeen] is the current time and
    [dataSource] the supplied one; [getTransaction] then resolves to that
    row. *)
Theorem addOrUpdateTransaction_insert (tx : AnyEVMTransaction.t) (dataSource : DataSource)
  (now : Z) (db : ChainDatabase) :
  let key := (AnyEVMTransaction.hash tx, Network.name (AnyEVMTransaction.network tx)) in
  let db' := fst (addOrUpdateTransaction tx dataSource now db) in
  transactions db !! key = None →
  snd (addOrUpdateTransaction tx dataSource now db) = Dexie.Fulfilled
  ∧ (∃ row, transactions db' = <[key := row]> (transactions db)
       ∧ Transaction.tx row = tx
       ∧ Transaction.firstSeen row = now
       ∧ Transaction.dataSource row = dataSource
       ∧ getTransaction db' (AnyEVMTransaction.network tx) (AnyEVMTransaction.hash tx)
         = JSPromise (JSRecord row))
  ∧ size (transactions db') = S (size (transactions db))
  ∧ (∀ k, k ≠ key → transactions db' !! k = transactions db !! k).
Proof.
  intros key db' Hnone.
  assert (addOrUpdateTransaction tx dataSource now db
          = (with_transactions db (<[key := Transaction.mk tx dataSource now]> (transactions db)),
             Dexie.Fulfilled)) as Hcall.
  { unfold addOrUpdateTransaction, Dexie.transaction, Dexie.get. fold key. by rewrite Hnone. }
  subst db'. rewrite Hcall. simpl.
  split; [done|]. split; [|split].
  - exists (Transaction.mk tx dataSource now). repeat split.
    unfold getTransaction, Dexie.where_equals. simpl. fold key.
    by rewrite lookup_insert_eq.
  - by apply map_size_insert_None.
  - intros k Hk. by rewrite lookup_insert_ne.
Qed.

Lemma addOrUpdateTransaction_insert_witness :
  ∃ row, getTransaction pending_db ethereum "0xA" = JSPromise (JSRecord row)
         ∧ Transaction.tx row = pending_tx
         ∧ Transaction.firstSeen row = sample_now
         ∧ Transaction.dataSource row = local.
Proof.
  destruct (addOrUpdateTransaction_insert pending_tx local sample_now empty_db)
    as (_ & (row & _ & Htx & Hseen & Hsrc & Hget) & _).
  { reflexivity. }
  exists row. split; [exact Hget|]. split; [exact Htx|]. split; [exact Hseen|exact Hsrc].
Defined.

(** ** The account tracking registry *)

Lemma with_accountsToTrack_id db : with_accountsToTrack db (accountsToTrack db) = db.
Proof. by destruct db. Qed.

Section bulkAdd_facts.
Context {K : Type} `{Countable K} {V : Type} (keyPath : V → K).

(** Rows with pairwise distinct keys that are all free are all added, and
    none fails. *)
Lemma bulkAdd_loop_fresh (vs : list V) (t : gmap K V) (n : nat) :
  NoDup (keyPath <$> vs) →
  (∀ v, v ∈ vs → t !! keyPath v = None) →
  ∃ t', Dexie.bulkAdd_loop keyPath vs t n = (t', n)
        ∧ snd <$> map_to_list t' ≡ₚ vs ++ (snd <$> map_to_list t).
Proof.
  revert t. induction vs as [|v vs IH]; intros t Hnd Hfree.
  - exists t. done.
  - rewrite fmap_cons in Hnd. apply NoDup_cons in Hnd as [Hv Hnd].
    simpl. unfold Dexie.add.
    rewrite (Hfree v) by left.
    destruct (IH (<[keyPath v := v]> t) Hnd) as (t' & Hloop & Hperm).
    { intros w Hw. rewrite lookup_insert_ne.
      - apply Hfree. by right.
      - intros Heq. apply Hv. rewrite Heq. by apply list_elem_of_fmap_2. }
    exists t'. split; [done|].
    rewrite Hperm, map_to_list_insert by (apply Hfree; left).
    simpl. by rewrite Permutation_middle.
Qed.

(** The count of failures never decreases, and it grows when a key is
    taken or occurs twice. *)
Lemma bulkAdd_loop_failures (vs : list V) (t t' : gmap K V) (n m : nat) :
  Dexie.bulkAdd_loop keyPath vs t n = (t', m) →
  (n ≤ m)%nat
  ∧ ((∃ v, v ∈ vs ∧ is_Some (t !! keyPath v)) ∨ ¬ NoDup (keyPath <$> vs) → (n < m)%nat).
Proof.
  revert t n. induction vs as [|v vs IH]; intros t n Hloop.
  - simpl in Hloop. injection Hloop as <- <-. split; [lia|].
    intros [(v & Hv & _)|Hnd].
    + by apply elem_of_nil in Hv.
    + exfalso. apply Hnd. constructor.
  - simpl in Hloop. unfold Dexie.add in Hloop.
    destruct (t !! keyPath v) as [old|] eqn:Hold.
    + apply IH in Hloop as [Hle _]. split; intros; lia.
    + apply IH in Hloop as [Hle Hlt]. split; [done|].
      intros Hcause. apply Hlt.
      destruct Hcause as [(w & Hw & Hsome)|Hnd].
      * apply elem_of_cons in Hw as [->|Hw].
        -- rewrite Hold in Hsome. by destruct Hsome.
        -- left. exists w. split; [done|].
           destruct (decide (keyPath v = keyPath w)) as [Heq|Hne].
           ++ rewrite Heq, lookup_insert_eq. eauto.
           ++ by rewrite lookup_insert_ne.
      * destruct (decide (keyPath v ∈ keyPath <$> vs)) as [Hin|Hnin].
        -- left. apply list_elem_of_fmap in Hin as (w & Heq & Hw).
           exists w. split; [done|]. rewrite <- Heq, lookup_insert_eq. eauto.
        -- right. intros Hnd'. apply Hnd. rewrite fmap_cons. by apply NoDup_cons.
Qed.

End bulkAdd_facts.

Lemma setAccountsToTrack_distinct_keys db entries :
  NoDup (accountsToTrack_keyPath <$> entries) →
  ∃ t', setAccountsToTrack entries db = (with_accountsToTrack db t', Dexie.Fulfilled)
        ∧ snd <$> map_to_list t' ≡ₚ entries.
Proof.
  intros Hnd.
  destruct (bulkAdd_loop_fresh accountsToTrack_keyPath entries ∅ 0 Hnd)
    as (t' & Hloop & Hperm).
  { intros v _. apply lookup_empty. }
  exists t'. split.
  - unfold setAccountsToTrack, Dexie.transaction, Dexie.bulkAdd, Dexie.clear.
    by rewrite Hloop.
  - rewrite Hperm, map_to_list_empty. simpl. by rewrite app_nil_r.
Qed.

Lemma setAccountsToTrack_colliding_keys db entries :
  ¬ NoDup (accountsToTrack_keyPath <$> entries) →
  ∃ n, setAccountsToTrack entries db = (db, Dexie.Rejected (Dexie.BulkError n)).
Proof.
  intros Hnd.
  unfold setAccountsToTrack, Dexie.transaction, Dexie.bulkAdd, Dexie.clear.
  destruct (Dexie.bulkAdd_loop accountsToTrack_keyPath entries ∅ 0) as [t' m] eqn:Hloop.
  apply bulkAdd_loop_failures in Hloop as [_ Hlt].
  destruct m as [|m]; [exfalso; assert (0 < 0)%nat by auto; lia|].
  exists (S m). simpl. by rewrite with_accountsToTrack_id.
Qed.

(** C6, the claim as stated fails: a registry tracking one account is asked
    to track two entries that differ in the network family only; the call
    is rejected and the registry still holds the previous entry, not the
    two members of the set. *)
Lemma setAccountsToTrack_family_collision :
  entry_evm ≠ entry_btc
  ∧ snd (setAccountsToTrack [entry_evm; entry_btc] tracking_goerli_db)
    = Dexie.Rejected (Dexie.BulkError 1)
  ∧ getAccountsToTrack (fst (setAccountsToTrack [entry_evm; entry_btc] tracking_goerli_db))
    = JSPromise (JSArray [entry_goerli])
  ∧ ¬ resolves_to_members
        (getAccountsToTrack (fst (setAccountsToTrack [entry_evm; entry_btc] tracking_goerli_db)))
        [entry_evm; entry_btc].
Proof.
  assert (getAccountsToTrack (fst (setAccountsToTrack [entry_evm; entry_btc] tracking_goerli_db))
          = JSPromise (JSArray [entry_goerli])) as Hget by (vm_compute; reflexivity).
  split; [discriminate|]. split; [by vm_compute|]. split; [exact Hget|].
  intros (arr & Harr & Hperm). rewrite Hget in Harr. injection Harr as <-.
  apply Permutation_length in Hperm. discriminate.
Qed.

(** C6, amended: when the members of the set have pairwise distinct keys
    (account, network name, chain id), [setAccountsToTrack] is fulfilled and
    [getAccountsToTrack] then resolves to exactly the members of the set,
    nothing of the previous registry remaining and the other tables being
    untouched; when two members share a key the call is rejected and the
    store is as it was before the call. *)
Theorem setAccountsToTrack_replaces_registry (db : ChainDatabase)
  (entries : list AccountNetwork.t) :
  (NoDup (accountsToTrack_keyPath <$> entries) →
   snd (setAccountsToTrack entries db) = Dexie.Fulfilled
   ∧ resolves_to_members (getAccountsToTrack (fst (setAccountsToTrack entries db))) entries
   ∧ (∀ t, setAccountsToTrack entries (with_accountsToTrack db t)
           = setAccountsToTrack entries db)
   ∧ blocks (fst (setAccountsToTrack entries db)) = blocks db
   ∧ transactions (fst (setAccountsToTrack entries db)) = transactions db
   ∧ balances (fst (setAccountsToTrack entries db)) = balances db
   ∧ migrations (fst (setAccountsToTrack entries db)) = migrations db)
  ∧ (¬ NoDup (accountsToTrack_keyPath <$> entries) →
     ∃ n, setAccountsToTrack entries db = (db, Dexie.Rejected (Dexie.BulkError n))).
Proof.
  split; [|apply setAccountsToTrack_colliding_keys].
  intros Hnd.
  destruct (setAccountsToTrack_distinct_keys db entries Hnd) as (t' & Hcall & Hperm).
  split; [by rewrite Hcall|]. split; [|split].
  - rewrite Hcall. simpl. exists (Dexie.primary_rows t'). split; [done|].
    by rewrite primary_rows_Permutation.
  - intros t.
    destruct (setAccountsToTrack_distinct_keys (with_accountsToTrack db t) entries Hnd)
      as (t'' & Hcall' & _).
    unfold setAccountsToTrack, Dexie.transaction, Dexie.clear in *. simpl in *.
    destruct (Dexie.bulkAdd accountsToTrack_keyPath entries ∅) as [t2 [e|]]; simpl in *;
      [discriminate|done].
  - by rewrite Hcall.
Qed.

Lemma setAccountsToTrack_replaces_registry_witness :
  resolves_to_members
    (getAccountsToTrack (fst (setAccountsToTrack [entry_evm; entry_goerli] tracking_goerli_db)))
    [entry_evm; entry_goerli].
Proof.
  refine (proj1 (proj2 (proj1 (setAccountsToTrack_replaces_registry
                                 tracking_goerli_db [entry_evm; entry_goerli]) _))).
  apply (bool_decide_unpack _). vm_compute. exact I.
Defined.

(** C7, the claim as stated fails: two entries that differ in the network
    family (and agree on account, network name and chain id) do not
    coexist; the one added last replaces the other. *)
Lemma addAccountToTrack_family_not_in_key :
  entry_evm ≠ entry_btc
  ∧ Network.family (AccountNetwork.network entry_evm)
    ≠ Network.family (AccountNetwork.network entry_btc)
  ∧ getAccountsToTrack
      (fst (addAccountToTrack entry_btc (fst (addAccountToTrack entry_evm empty_db))))
    = JSPromise (JSArray [entry_btc])
  ∧ ¬ (∃ arr, getAccountsToTrack
                (fst (addAccountToTrack entry_btc (fst (addAccountToTrack entry_evm empty_db))))
              = JSPromise (JSArray arr)
              ∧ entry_evm ∈ arr ∧ entry_btc ∈ arr).
Proof.
  assert (getAccountsToTrack
            (fst (addAccountToTrack entry_btc (fst (addAccountToTrack entry_evm empty_db))))
          = JSPromise (JSArray [entry_btc])) as Hget by (vm_compute; reflexivity).
  split; [discriminate|]. split; [discriminate|]. split; [exact Hget|].
  intros (arr & Harr & Hevm & _). rewrite Hget in Harr. injection Harr as <-.
  apply list_elem_of_singleton in Hevm. discriminate.
Qed.

(** C7, amended: [addAccountToTrack] inserts or replaces the row keyed by
    (account, network name, chain id). Two entries that agree on these
    three components occupy one row, the later replacing the earlier; two
    entries that differ in one of them coexist; adding the same entry twice
    leaves the registry as adding it once. *)
Theorem addAccountToTrack_keyed (db : ChainDatabase) (e1 e2 : AccountNetwork.t) :
  let key e := (AccountNetwork.account e,
                Network.name (AccountNetwork.network e),
                Network.chainID (AccountNetwork.network e)) in
  let db1 := fst (addAccountToTrack e1 db) in
  let db12 := fst (addAccountToTrack e2 db1) in
  snd (addAccountToTrack e1 db) = Dexie.Fulfilled
  ∧ accountsToTrack db1 !! key e1 = Some e1
  ∧ (∀ k, k ≠ key e1 → accountsToTrack db1 !! k = accountsToTrack db !! k)
  ∧ (key e1 = key e2 → db12 = fst (addAccountToTrack e2 db))
  ∧ (key e1 ≠ key e2 →
     accountsToTrack db12 !! key e1 = Some e1 ∧ accountsToTrack db12 !! key e2 = Some e2)
  ∧ fst (addAccountToTrack e1 db1) = db1.
Proof.
  intros key db1 db12. subst db1 db12.
  unfold addAccountToTrack, Dexie.put, with_accountsToTrack. simpl.
  change (accountsToTrack_keyPath e1) with (key e1).
  change (accountsToTrack_keyPath e2) with (key e2).
  split; [done|]. split; [apply lookup_insert_eq|].
  split; [intros k Hk; by rewrite lookup_insert_ne|].
  split; [|split].
  - intros ->. by rewrite insert_insert_eq.
  - intros Hne. split.
    + by rewrite lookup_insert_ne, lookup_insert_eq.
    + apply lookup_insert_eq.
  - by rewrite insert_insert_eq.
Qed.

Lemma addAccountToTrack_keyed_witness :
  accountsToTrack (fst (addAccountToTrack entry_goerli (fst (addAccountToTrack entry_evm empty_db))))
    !! ("0xabc", "Ethereum", "1") = Some entry_evm
  ∧ accountsToTrack (fst (addAccountToTrack entry_goerli (fst (addAccountToTrack entry_evm empty_db))))
    !! ("0xabc", "Goerli", "5") = Some entry_goerli.
Proof.
  refine (proj1 (proj2 (proj2 (proj2 (proj2
            (addAccountToTrack_keyed empty_db entry_evm entry_goerli))))) _).
  discriminate.
Defined.

(** ** The migrations ledger *)

Lemma with_migrations_id db : with_migrations db (migrations db) = db.
Proof. by destruct db. Qed.

Lemma getOrCreateDB_empty_ledger now stored :
  migrations stored = ∅ →
  getOrCreateDB now stored
  = (with_migrations stored {[0 := Migration.mk 0 now]}, Dexie.Fulfilled).
Proof.
  intros Hempty. unfold getOrCreateDB, getDB, Dexie.count, Dexie.transaction, Dexie.add.
  rewrite Hempty, map_size_empty. simpl.
  by rewrite lookup_empty, insert_empty.
Qed.

Lemma getOrCreateDB_initialized now stored :
  migrations stored ≠ ∅ → getOrCreateDB now stored = (stored, Dexie.Fulfilled).
Proof.
  intros Hne. unfold getOrCreateDB, getDB, Dexie.count.
  apply map_size_non_empty_iff in Hne. by rewrite decide_False.
Qed.

Lemma open_repeatedly_initialized nows stored :
  migrations stored ≠ ∅ → open_repeatedly nows stored = stored.
Proof.
  intros Hne. induction nows as [|now nows IH]; simpl; [done|].
  by rewrite getOrCreateDB_initialized.
Qed.

(** C9: opening a store whose ledger is empty inserts the one sentinel row
    of id 0 stamped with the current time; opening a store whose ledger is
    not empty changes nothing; so after any number of openings that starts
    from an empty ledger the ledger holds exactly the sentinel row of the
    first opening. *)
Theorem getOrCreateDB_bootstrap_idempotent (stored : ChainDatabase) (now : Z) (nows : list Z) :
  migrations stored = ∅ →
  getOrCreateDB now stored
  = (with_migrations stored {[0 := Migration.mk 0 now]}, Dexie.Fulfilled)
  ∧ (∀ db later, migrations db ≠ ∅ → getOrCreateDB later db = (db, Dexie.Fulfilled))
  ∧ open_repeatedly (now :: nows) stored
    = with_migrations stored {[0 := Migration.mk 0 now]}
  ∧ map_to_list (migrations (open_repeatedly (now :: nows) stored))
    = [(0, Migration.mk 0 now)].
Proof.
  intros Hempty.
  assert (open_repeatedly (now :: nows) stored
          = with_migrations stored {[0 := Migration.mk 0 now]}) as Hopen.
  { simpl. rewrite getOrCreateDB_empty_ledger by done. simpl.
    apply open_repeatedly_initialized. simpl. apply insert_non_empty. }
  split; [by apply getOrCreateDB_empty_ledger|].
  split; [intros db later; apply getOrCreateDB_initialized|].
  split; [exact Hopen|].
  rewrite Hopen. simpl. apply map_to_list_singleton.
Qed.

Lemma getOrCreateDB_bootstrap_idempotent_witness :
  map_to_list (migrations (open_repeatedly [sample_now; sample_now + 5; sample_now + 9] empty_db))
  = [(0, Migration.mk 0 sample_now)].
Proof.
  refine (proj2 (proj2 (proj2 (getOrCreateDB_bootstrap_idempotent
                                 empty_db sample_now [sample_now + 5; sample_now + 9] _)))).
  reflexivity.
Defined.

(** ** Further properties of the transaction tracker *)

(** Both branches of the scope at once: the row under the key of [tx] is
    rewritten by [upsert_row]. *)
Lemma addOrUpdateTransaction_partial_alter tx dataSource now db :
  addOrUpdateTransaction tx dataSource now db
  = (with_transactions db
       (partial_alter (upsert_row tx dataSource now) (transaction_key tx) (transactions db)),
     Dexie.Fulfilled).
Proof.
  unfold addOrUpdateTransaction, Dexie.transaction, Dexie.get, Dexie.modify_equals, Dexie.put.
  fold (transaction_key tx).
  change (transactions_keyPath (Transaction.mk tx dataSource now)) with (transaction_key tx).
  destruct (transactions db !! transaction_key tx) as [row|] eqn:Hrow; simpl; f_equal; f_equal.
  - apply partial_alter_ext. intros o Ho. rewrite Hrow in Ho. by subst o.
  - apply partial_alter_ext. intros o Ho. rewrite Hrow in Ho. by subst o.
Qed.

Lemma addOrUpdateTransaction_lookup tx dataSource now db k :
  transactions (fst (addOrUpdateTransaction tx dataSource now db)) !! k
  = if decide (k = transaction_key tx)
    then upsert_row tx dataSource now (transactions db !! k)
    else transactions db !! k.
Proof.
  rewrite addOrUpdateTransaction_partial_alter. simpl.
  case_decide as Hk.
  - subst k. apply lookup_partial_alter_eq.
  - by apply lookup_partial_alter_ne.
Qed.

Lemma getTransaction_lookup db network txHash :
  getTransaction db network txHash
  = JSPromise match transactions db !! (txHash, Network.name network) with
              | Some row => JSRecord row
              | None => JSNull
              end.
Proof.
  unfold getTransaction, Dexie.where_equals, Dexie.collection_toArray, Dexie.iterate. simpl.
  by destruct (transactions db !! (txHash, Network.name network)).
Qed.

Lemma same_identity_refl row : same_identity row row.
Proof. by repeat split. Qed.

Lemma same_identity_modify tx row : same_identity row (modify_block_association tx row).
Proof. by repeat split. Qed.

Lemma same_identity_trans r1 r2 r3 :
  same_identity r1 r2 → same_identity r2 r3 → same_identity r1 r3.
Proof.
  unfold same_identity. intros (?&?&?&?&?&?&?&?) (?&?&?&?&?&?&?&?).
  repeat split; congruence.
Qed.

(** X1: [getTransaction] resolves to [null] exactly when no row is stored
    under (txHash, network.name), and otherwise to the row stored there; it
    never resolves to [undefined], and two networks of the same name get the
    same answer. *)
Theorem getTransaction_hit_or_null (db : ChainDatabase) (network : Network.t)
  (txHash : string) :
  (getTransaction db network txHash = JSPromise JSNull
   ↔ transactions db !! (txHash, Network.name network) = None)
  ∧ (∀ row, getTransaction db network txHash = JSPromise (JSRecord row)
            ↔ transactions db !! (txHash, Network.name network) = Some row)
  ∧ getTransaction db network txHash ≠ JSPromise JSUndefined
  ∧ (∀ network', Network.name network' = Network.name network →
                 getTransaction db network' txHash = getTransaction db network txHash).
Proof.
  rewrite getTransaction_lookup.
  split; [|split; [|split]].
  - destruct (transactions db !! _); split; congruence.
  - intros row. destruct (transactions db !! _); split; congruence.
  - by destruct (transactions db !! _).
  - intros network' Hname. by rewrite getTransaction_lookup, Hname.
Qed.

(** X2: after [addOrUpdateTransaction(tx, ..)], whatever the store held,
    [getTransaction(tx.network, tx.hash)] resolves to a row that carries the
    block height and block hash of [tx]; the answer for every other
    (hash, network name) is what it was before the call. *)
Theorem addOrUpdateTransaction_then_getTransaction (tx : AnyEVMTransaction.t)
  (dataSource : DataSource) (now : Z) (db : ChainDatabase) :
  let db' := fst (addOrUpdateTransaction tx dataSource now db) in
  (∃ row, getTransaction db' (AnyEVMTransaction.network tx) (AnyEVMTransaction.hash tx)
          = JSPromise (JSRecord row)
          ∧ AnyEVMTransaction.blockHeight (Transaction.tx row) = AnyEVMTransaction.blockHeight tx
          ∧ AnyEVMTransaction.blockHash (Transaction.tx row) = AnyEVMTransaction.blockHash tx)
  ∧ (∀ network txHash,
       (txHash, Network.name network)
       ≠ (AnyEVMTransaction.hash tx, Network.name (AnyEVMTransaction.network tx)) →
       getTransaction db' network txHash = getTransaction db network txHash).
Proof.
  intros db'. subst db'. rewrite addOrUpdateTransaction_partial_alter. simpl. split.
  - rewrite getTransaction_lookup. simpl.
    fold (transaction_key tx). rewrite lookup_partial_alter_eq.
    unfold upsert_row.
    destruct (transactions db !! transaction_key tx) as [row|]; eexists; by split.
  - intros network txHash Hne. rewrite !getTransaction_lookup. simpl.
    by rewrite lookup_partial_alter_ne.
Qed.

(** X3: [addOrUpdateTransaction] is always fulfilled, touches no table but
    [transactions], removes no row and adds at most the key of [tx]: the
    keys afterwards are the keys before together with
    (tx.hash, tx.network.name). *)
Theorem addOrUpdateTransaction_frame (tx : AnyEVMTransaction.t) (dataSource : DataSource)
  (now : Z) (db : ChainDatabase) :
  let db' := fst (addOrUpdateTransaction tx dataSource now db) in
  snd (addOrUpdateTransaction tx dataSource now db) = Dexie.Fulfilled
  ∧ accountsToTrack db' = accountsToTrack db
  ∧ blocks db' = blocks db
  ∧ balances db' = balances db
  ∧ migrations db' = migrations db
  ∧ dom (transactions db')
    = {[ (AnyEVMTransaction.hash tx, Network.name (AnyEVMTransaction.network tx)) ]}
      ∪ dom (transactions db)
  ∧ (size (transactions db) ≤ size (transactions db') ≤ S (size (transactions db)))%nat.
Proof.
  intros db'. subst db'. rewrite addOrUpdateTransaction_partial_alter. simpl.
  fold (transaction_key tx).
  assert (∃ row', partial_alter (upsert_row tx dataSource now) (transaction_key tx)
                    (transactions db)
                  = <[transaction_key tx := row']> (transactions db)) as [row' ->].
  { destruct (upsert_row tx dataSource now (transactions db !! transaction_key tx))
      as [row'|] eqn:Hrow'; [|discriminate].
    exists row'. apply partial_alter_ext. by intros o <-. }
  rewrite dom_insert_L, map_size_insert.
  repeat split; try done;
    destruct (transactions db !! transaction_key tx); simpl; lia.
Qed.

Lemma forget_firstSeen_upsert_row tx dataSource now now' existing :
  forget_firstSeen <$> upsert_row tx dataSource now existing
  = forget_firstSeen <$> upsert_row tx dataSource now' existing.
Proof. by destruct existing. Qed.

(** X4: two calls of [addOrUpdateTransaction] for different
    (hash, network name) keys, run in either order and with whatever the
    clock reads at each of the four executions, leave stores that differ at
    most in the [firstSeen] of the rows the calls insert: the transactions
    agree once [firstSeen] is left out, every row that was stored before
    the calls is the same in both, the other tables are the same, and when
    both keys were stored before the calls the two stores are equal. *)
Theorem addOrUpdateTransaction_commute (tx1 tx2 : AnyEVMTransaction.t)
  (src1 src2 : DataSource) (first1 second1 first2 second2 : Z) (db : ChainDatabase) :
  let key1 := (AnyEVMTransaction.hash tx1, Network.name (AnyEVMTransaction.network tx1)) in
  let key2 := (AnyEVMTransaction.hash tx2, Network.name (AnyEVMTransaction.network tx2)) in
  let one_then_two :=
    fst (addOrUpdateTransaction tx2 src2 second1
           (fst (addOrUpdateTransaction tx1 src1 first1 db))) in
  let two_then_one :=
    fst (addOrUpdateTransaction tx1 src1 second2
           (fst (addOrUpdateTransaction tx2 src2 first2 db))) in
  key1 ≠ key2 →
  forget_firstSeen <$> transactions one_then_two
  = forget_firstSeen <$> transactions two_then_one
  ∧ (∀ k, is_Some (transactions db !! k) →
          transactions one_then_two !! k = transactions two_then_one !! k)
  ∧ accountsToTrack one_then_two = accountsToTrack two_then_one
  ∧ blocks one_then_two = blocks two_then_one
  ∧ balances one_then_two = balances two_then_one
  ∧ migrations one_then_two = migrations two_then_one
  ∧ (is_Some (transactions db !! key1) → is_Some (transactions db !! key2) →
     one_then_two = two_then_one).
Proof.
  intros key1 key2 one_then_two two_then_one Hne.
  fold (transaction_key tx1) in key1. fold (transaction_key tx2) in key2.
  assert (∀ k, transactions one_then_two !! k
               = if decide (k = key2) then upsert_row tx2 src2 second1 (transactions db !! k)
                 else if decide (k = key1) then upsert_row tx1 src1 first1 (transactions db !! k)
                 else transactions db !! k) as Hone.
  { intros k. subst one_then_two. rewrite !addOrUpdateTransaction_lookup.
    fold key1 key2. repeat case_decide; congruence. }
  assert (∀ k, transactions two_then_one !! k
               = if decide (k = key2) then upsert_row tx2 src2 first2 (transactions db !! k)
                 else if decide (k = key1) then upsert_row tx1 src1 second2 (transactions db !! k)
                 else transactions db !! k) as Htwo.
  { intros k. subst two_then_one. rewrite !addOrUpdateTransaction_lookup.
    fold key1 key2. repeat case_decide; congruence. }
  assert (∀ k, is_Some (transactions db !! k) →
               transactions one_then_two !! k = transactions two_then_one !! k) as Hstored.
  { intros k [row Hrow]. rewrite Hone, Htwo, Hrow. by repeat case_decide. }
  split.
  { apply map_eq. intros k. rewrite !lookup_fmap, Hone, Htwo.
    repeat case_decide; try done; apply forget_firstSeen_upsert_row. }
  split; [exact Hstored|].
  do 4 (split; [by subst one_then_two two_then_one;
                   rewrite !addOrUpdateTransaction_partial_alter|]).
  intros [row1 Hrow1] [row2 Hrow2].
  assert (transactions one_then_two = transactions two_then_one) as Heq.
  { apply map_eq. intros k. rewrite Hone, Htwo.
    repeat case_decide; subst; by rewrite ?Hrow1, ?Hrow2. }
  revert Heq. subst one_then_two two_then_one.
  rewrite !addOrUpdateTransaction_partial_alter. simpl.
  unfold with_transactions. simpl. by intros ->.
Qed.

Lemma addOrUpdateTransaction_commute_witness :
  forget_firstSeen
    <$> transactions (fst (addOrUpdateTransaction other_tx alchemy 8
                             (fst (addOrUpdateTransaction pending_tx local 5 empty_db))))
  = forget_firstSeen
      <$> transactions (fst (addOrUpdateTransaction pending_tx local 8
                               (fst (addOrUpdateTransaction other_tx alchemy 5 empty_db)))).
Proof.
  refine (proj1 (addOrUpdateTransaction_commute pending_tx other_tx local alchemy 5 8 5 8
                   empty_db _)).
  discriminate.
Defined.

(** X5: when a row is already stored under the key, an update for that key
    is overwritten without trace by the next one: the store after the two
    calls is the store after the second alone. *)
Theorem addOrUpdateTransaction_absorbs (tx1 tx2 : AnyEVMTransaction.t)
  (src1 src2 : DataSource) (now1 now2 : Z) (db : ChainDatabase) :
  (AnyEVMTransaction.hash tx1, Network.name (AnyEVMTransaction.network tx1))
  = (AnyEVMTransaction.hash tx2, Network.name (AnyEVMTransaction.network tx2)) →
  is_Some (transactions db
             !! (AnyEVMTransaction.hash tx1, Network.name (AnyEVMTransaction.network tx1))) →
  fst (addOrUpdateTransaction tx2 src2 now2 (fst (addOrUpdateTransaction tx1 src1 now1 db)))
  = fst (addOrUpdateTransaction tx2 src2 now2 db).
Proof.
  intros Hkey [row Hrow]. rewrite !addOrUpdateTransaction_partial_alter. simpl.
  unfold with_transactions. simpl. f_equal.
  fold (transaction_key tx1) in Hkey, Hrow. fold (transaction_key tx2) in Hkey.
  rewrite <- Hkey, partial_alter_partial_alter_eq.
  apply partial_alter_ext. intros o Ho. rewrite Hrow in Ho. by subst o.
Qed.

Lemma addOrUpdateTransaction_absorbs_witness :
  fst (addOrUpdateTransaction confirmed_elsewhere_tx alchemy 9
         (fst (addOrUpdateTransaction confirmed_tx alchemy 7 pending_db)))
  = fst (addOrUpdateTransaction confirmed_elsewhere_tx alchemy 9 pending_db).
Proof.
  apply addOrUpdateTransaction_absorbs; [reflexivity|].
  exists (Transaction.mk pending_tx local sample_now). reflexivity.
Defined.

(** X6: a call whose key and block association (block height and block
    hash) equal those of the call before it changes nothing, even when its
    other fields, its data source or the clock differ. *)
Theorem addOrUpdateTransaction_repeat_ignored (tx1 tx2 : AnyEVMTransaction.t)
  (src1 src2 : DataSource) (now1 now2 : Z) (db : ChainDatabase) :
  (AnyEVMTransaction.hash tx1, Network.name (AnyEVMTransaction.network tx1))
  = (AnyEVMTransaction.hash tx2, Network.name (AnyEVMTransaction.network tx2)) →
  AnyEVMTransaction.blockHeight tx1 = AnyEVMTransaction.blockHeight tx2 →
  AnyEVMTransaction.blockHash tx1 = AnyEVMTransaction.blockHash tx2 →
  fst (addOrUpdateTransaction tx2 src2 now2 (fst (addOrUpdateTransaction tx1 src1 now1 db)))
  = fst (addOrUpdateTransaction tx1 src1 now1 db).
Proof.
  intros Hkey Hheight Hhash. rewrite !addOrUpdateTransaction_partial_alter. simpl.
  unfold with_transactions. simpl. f_equal.
  fold (transaction_key tx1) in Hkey. fold (transaction_key tx2) in Hkey.
  rewrite <- Hkey, partial_alter_partial_alter_eq.
  apply partial_alter_ext. intros o _. unfold upsert_row, modify_block_association. simpl.
  rewrite <- Hheight, <- Hhash. f_equal.
  destruct o as [row|]; simpl; [done|]. by destruct tx1.
Qed.

Lemma addOrUpdateTransaction_repeat_ignored_witness :
  fst (addOrUpdateTransaction confirmed_elsewhere_tx local 9
         (fst (addOrUpdateTransaction confirmed_tx alchemy 7 empty_db)))
  = fst (addOrUpdateTransaction confirmed_tx alchemy 7 empty_db).
Proof.
  apply addOrUpdateTransaction_repeat_ignored; reflexivity.
Defined.

(** X7: a transaction first stored by an insert and then updated under the
    same key is found by [getTransaction] with the block height and block
    hash of the second call and with every other field as the first call
    stored it: the fields of its argument, its clock reading as [firstSeen]
    and its data source. *)
Theorem addOrUpdateTransaction_pending_then_confirmed (tx1 tx2 : AnyEVMTransaction.t)
  (src1 src2 : DataSource) (now1 now2 : Z) (db : ChainDatabase) :
  transactions db
    !! (AnyEVMTransaction.hash tx1, Network.name (AnyEVMTransaction.network tx1)) = None →
  (AnyEVMTransaction.hash tx1, Network.name (AnyEVMTransaction.network tx1))
  = (AnyEVMTransaction.hash tx2, Network.name (AnyEVMTransaction.network tx2)) →
  ∃ row,
    getTransaction
      (fst (addOrUpdateTransaction tx2 src2 now2 (fst (addOrUpdateTransaction tx1 src1 now1 db))))
      (AnyEVMTransaction.network tx2) (AnyEVMTransaction.hash tx2)
    = JSPromise (JSRecord row)
    ∧ AnyEVMTransaction.blockHeight (Transaction.tx row) = AnyEVMTransaction.blockHeight tx2
    ∧ AnyEVMTransaction.blockHash (Transaction.tx row) = AnyEVMTransaction.blockHash tx2
    ∧ same_identity (Transaction.mk tx1 src1 now1) row.
Proof.
  intros Hnone Hkey.
  fold (transaction_key tx1) in Hkey, Hnone. fold (transaction_key tx2) in Hkey.
  exists (modify_block_association tx2 (Transaction.mk tx1 src1 now1)).
  split; [|split; [done|split; [done|apply same_identity_modify]]].
  rewrite getTransaction_lookup, !addOrUpdateTransaction_partial_alter. simpl.
  fold (transaction_key tx2).
  rewrite <- Hkey, partial_alter_partial_alter_eq, lookup_partial_alter_eq, Hnone.
  reflexivity.
Qed.

Lemma addOrUpdateTransaction_pending_then_confirmed_witness :
  ∃ row,
    getTransaction
      (fst (addOrUpdateTransaction confirmed_elsewhere_tx alchemy (sample_now + 5)
              (fst (addOrUpdateTransaction pending_tx local sample_now empty_db))))
      (Network.mk "EVM" "0x1" "Ethereum") "0xA"
    = JSPromise (JSRecord row)
    ∧ AnyEVMTransaction.blockHeight (Transaction.tx row) = Some 100
    ∧ AnyEVMTransaction.blockHash (Transaction.tx row) = Some "0xB"
    ∧ same_identity (Transaction.mk pending_tx local sample_now) row.
Proof.
  apply (addOrUpdateTransaction_pending_then_confirmed pending_tx confirmed_elsewhere_tx);
    reflexivity.
Defined.

(** X8: over any run of [addOrUpdateTransaction] calls a row that is stored
    stays stored under its key, and its hash, sender, recipient, nonce,
    network, chain-specific fields, [firstSeen] and [dataSource] stay what
    they were: only the block association is ever rewritten. *)
Theorem addOrUpdateTransactions_identity_kept (calls : list TransactionCall)
  (db : ChainDatabase) (k : string * string) (row : Transaction.t) :
  transactions db !! k = Some row →
  ∃ row', transactions (addOrUpdateTransactions calls db) !! k = Some row'
          ∧ same_identity row row'.
Proof.
  revert db row. induction calls as [|c calls IH]; intros db row Hrow.
  - exists row. split; [done|apply same_identity_refl].
  - unfold addOrUpdateTransactions. simpl.
    fold (addOrUpdateTransactions calls
            (fst (addOrUpdateTransaction (call_tx c) (call_dataSource c) (call_now c) db))).
    pose proof (addOrUpdateTransaction_lookup (call_tx c) (call_dataSource c) (call_now c) db k)
      as Hstep.
    rewrite Hrow in Hstep. case_decide as Hk.
    + simpl in Hstep. destruct (IH _ _ Hstep) as (row' & Hrow' & Hsame).
      exists row'. split; [done|].
      eapply same_identity_trans; [apply same_identity_modify|exact Hsame].
    + destruct (IH _ _ Hstep) as (row' & Hrow' & Hsame). by exists row'.
Qed.

Lemma addOrUpdateTransactions_identity_kept_witness :
  ∃ row', transactions (addOrUpdateTransactions sample_calls pending_db)
            !! ("0xA", "Ethereum") = Some row'
          ∧ same_identity (Transaction.mk pending_tx local sample_now) row'.
Proof.
  apply addOrUpdateTransactions_identity_kept. reflexivity.
Defined.

Lemma addOrUpdateTransaction_keeps_well_keyed tx dataSource now db :
  well_keyed transactions_keyPath (transactions db) →
  well_keyed transactions_keyPath
    (transactions (fst (addOrUpdateTransaction tx dataSource now db))).
Proof.
  intros Hwk k r. rewrite addOrUpdateTransaction_lookup.
  case_decide as Hk; [|apply Hwk].
  subst k. unfold upsert_row.
  destruct (transactions db !! transaction_key tx) as [row|] eqn:Hrow; intros [= <-].
  - apply Hwk in Hrow. exact Hrow.
  - reflexivity.
Qed.

(** X9: when every stored transaction sits under the key its own hash and
    network name give (as in the empty store), the same holds after any run
    of [addOrUpdateTransaction] calls, and a row that [getTransaction] then
    resolves to has the hash and the network name that were asked for. *)
Theorem addOrUpdateTransactions_well_keyed (calls : list TransactionCall)
  (db : ChainDatabase) :
  well_keyed transactions_keyPath (transactions db) →
  well_keyed transactions_keyPath (transactions (addOrUpdateTransactions calls db))
  ∧ ∀ network txHash row,
      getTransaction (addOrUpdateTransactions calls db) network txHash
      = JSPromise (JSRecord row) →
      AnyEVMTransaction.hash (Transaction.tx row) = txHash
      ∧ Network.name (AnyEVMTransaction.network (Transaction.tx row)) = Network.name network.
Proof.
  intros Hwk.
  assert (well_keyed transactions_keyPath (transactions (addOrUpdateTransactions calls db)))
    as Hwk'.
  { revert db Hwk. induction calls as [|c calls IH]; intros db Hwk; [done|].
    apply (IH (fst (addOrUpdateTransaction (call_tx c) (call_dataSource c) (call_now c) db))).
    by apply addOrUpdateTransaction_keeps_well_keyed. }
  split; [exact Hwk'|].
  intros network txHash row. rewrite getTransaction_lookup.
  destruct (transactions (addOrUpdateTransactions calls db) !! (txHash, Network.name network))
    as [row0|] eqn:Hrow0; intros [= <-].
  apply Hwk' in Hrow0. unfold transactions_keyPath in Hrow0. by injection Hrow0.
Qed.

Lemma addOrUpdateTransactions_well_keyed_witness :
  well_keyed transactions_keyPath (transactions (addOrUpdateTransactions sample_calls empty_db)).
Proof.
  refine (proj1 (addOrUpdateTransactions_well_keyed sample_calls empty_db _)).
  intros k r Hk. simpl in Hk. rewrite lookup_empty in Hk. discriminate.
Defined.

(** ** Further properties of the account tracking registry *)

Section put_facts.
Context {K : Type} `{Countable K} {V : Type} (keyPath : V → K).

Lemma bulkAdd_loop_put (vs : list V) (t : gmap K V) (n : nat) :
  NoDup (keyPath <$> vs) →
  (∀ v, v ∈ vs → t !! keyPath v = None) →
  Dexie.bulkAdd_loop keyPath vs t n = (foldl (fun t v => Dexie.put keyPath v t) t vs, n).
Proof.
  revert t. induction vs as [|v vs IH]; intros t Hnd Hfree; [done|].
  rewrite fmap_cons in Hnd. apply NoDup_cons in Hnd as [Hv Hnd].
  simpl. unfold Dexie.add. rewrite (Hfree v) by left.
  apply IH; [done|].
  intros w Hw. unfold Dexie.put. rewrite lookup_insert_ne.
  - apply Hfree. by right.
  - intros Heq. apply Hv. rewrite Heq. by apply list_elem_of_fmap_2.
Qed.

Lemma lookup_foldl_put_ne (vs : list V) (t : gmap K V) (k : K) :
  k ∉ keyPath <$> vs →
  foldl (fun t v => Dexie.put keyPath v t) t vs !! k = t !! k.
Proof.
  revert t. induction vs as [|v vs IH]; intros t Hk; [done|].
  rewrite fmap_cons in Hk. apply not_elem_of_cons in Hk as [Hne Hk].
  simpl. rewrite IH by done. unfold Dexie.put. by rewrite lookup_insert_ne.
Qed.

Lemma lookup_foldl_put_member (vs : list V) (t : gmap K V) (v : V) :
  NoDup (keyPath <$> vs) → v ∈ vs →
  foldl (fun t v => Dexie.put keyPath v t) t vs !! keyPath v = Some v.
Proof.
  revert t. induction vs as [|w vs IH]; intros t Hnd Hv.
  - by apply elem_of_nil in Hv.
  - rewrite fmap_cons in Hnd. apply NoDup_cons in Hnd as [Hw Hnd].
    simpl. apply elem_of_cons in Hv as [->|Hv].
    + rewrite lookup_foldl_put_ne by done. unfold Dexie.put. apply lookup_insert_eq.
    + by apply IH.
Qed.

Lemma foldl_put_Permutation (vs vs' : list V) (t : gmap K V) :
  NoDup (keyPath <$> vs) → vs ≡ₚ vs' →
  foldl (fun t v => Dexie.put keyPath v t) t vs
  = foldl (fun t v => Dexie.put keyPath v t) t vs'.
Proof.
  intros Hnd Hperm. revert t Hnd.
  induction Hperm as [|x l l' Hperm IH|x y l|l l' l'' Hperm1 IH1 Hperm2 IH2]; intros t Hnd.
  - done.
  - rewrite fmap_cons in Hnd. apply NoDup_cons in Hnd as [_ Hnd]. simpl. by apply IH.
  - rewrite !fmap_cons in Hnd. apply NoDup_cons in Hnd as [Hy _].
    apply not_elem_of_cons in Hy as [Hne _].
    simpl. unfold Dexie.put. by rewrite insert_insert_ne.
  - rewrite IH1 by done. apply IH2. by rewrite <- Hperm1.
Qed.

Lemma foldl_put_well_keyed (vs : list V) (t : gmap K V) :
  well_keyed keyPath t →
  well_keyed keyPath (foldl (fun t v => Dexie.put keyPath v t) t vs).
Proof.
  revert t. induction vs as [|v vs IH]; intros t Hwk; [done|].
  simpl. apply IH. intros k r. unfold Dexie.put.
  destruct (decide (k = keyPath v)) as [->|Hne].
  - rewrite lookup_insert_eq. by intros [= <-].
  - rewrite lookup_insert_ne by done. apply Hwk.
Qed.

(** The rows listed, in a well-keyed table, have pairwise distinct keys. *)
Lemma primary_rows_NoDup_keys `{IDBKey K} (t : gmap K V) :
  well_keyed keyPath t → NoDup (keyPath <$> Dexie.primary_rows t).
Proof.
  intros Hwk. unfold Dexie.primary_rows.
  set (sorted := array_sort _ (map_to_list t)).
  assert (sorted ≡ₚ map_to_list t) as Hperm by apply array_sort_Permutation.
  assert (keyPath <$> (snd <$> sorted) = fst <$> sorted) as ->.
  { rewrite <- list_fmap_compose. apply list_fmap_ext.
    intros i [k r] Hi. simpl. apply Hwk.
    apply elem_of_map_to_list. rewrite <- Hperm. by eapply list_elem_of_lookup_2. }
  rewrite Hperm. apply NoDup_fst_map_to_list.
Qed.

Lemma length_primary_rows `{IDBKey K} (t : gmap K V) :
  length (Dexie.primary_rows t) = size t.
Proof.
  unfold Dexie.primary_rows.
  by rewrite length_fmap, array_sort_Permutation, length_map_to_list.
Qed.

Lemma elem_of_primary_rows `{IDBKey K} (t : gmap K V) r :
  r ∈ Dexie.primary_rows t ↔ ∃ k, t !! k = Some r.
Proof.
  rewrite primary_rows_Permutation, list_elem_of_fmap. split.
  - intros [[k v] [-> Hin]]. exists k. by apply elem_of_map_to_list.
  - intros [k Hk]. exists (k, r). split; [done|]. by apply elem_of_map_to_list.
Qed.

End put_facts.

Lemma setAccountsToTrack_put_form db entries :
  NoDup (accountsToTrack_keyPath <$> entries) →
  setAccountsToTrack entries db
  = (with_accountsToTrack db
       (foldl (fun t e => Dexie.put accountsToTrack_keyPath e t) ∅ entries),
     Dexie.Fulfilled).
Proof.
  intros Hnd.
  unfold setAccountsToTrack, Dexie.transaction, Dexie.bulkAdd, Dexie.clear.
  rewrite (bulkAdd_loop_put accountsToTrack_keyPath entries ∅ 0 Hnd); [done|].
  intros v _. apply lookup_empty.
Qed.

Lemma foldl_addAccountToTrack entries db :
  foldl (fun db e => fst (addAccountToTrack e db)) db entries
  = with_accountsToTrack db
      (foldl (fun t e => Dexie.put accountsToTrack_keyPath e t) (accountsToTrack db) entries).
Proof.
  revert db. induction entries as [|e entries IH]; intros db.
  - simpl. by rewrite with_accountsToTrack_id.
  - simpl. by rewrite IH.
Qed.

(** X10: [setAccountsToTrack] is idempotent: a second call with the same
    entries settles as the first did and leaves the store as the first left
    it, whether the first was fulfilled or rejected. *)
Theorem setAccountsToTrack_idempotent (entries : list AccountNetwork.t) (db : ChainDatabase) :
  setAccountsToTrack entries (fst (setAccountsToTrack entries db))
  = setAccountsToTrack entries db.
Proof.
  destruct (decide (NoDup (accountsToTrack_keyPath <$> entries))) as [Hnd|Hnd].
  - by rewrite !setAccountsToTrack_put_form.
  - destruct (setAccountsToTrack_colliding_keys db entries Hnd) as [n Hn].
    by rewrite Hn.
Qed.

(** X11: the store [setAccountsToTrack] leaves does not depend on the order
    in which the set yields its members. *)
Theorem setAccountsToTrack_order_irrelevant (entries entries' : list AccountNetwork.t)
  (db : ChainDatabase) :
  entries ≡ₚ entries' →
  fst (setAccountsToTrack entries db) = fst (setAccountsToTrack entries' db).
Proof.
  intros Hperm.
  destruct (decide (NoDup (accountsToTrack_keyPath <$> entries))) as [Hnd|Hnd].
  - assert (NoDup (accountsToTrack_keyPath <$> entries')) as Hnd' by by rewrite <- Hperm.
    rewrite !setAccountsToTrack_put_form by done. simpl. f_equal.
    by apply foldl_put_Permutation.
  - assert (¬ NoDup (accountsToTrack_keyPath <$> entries')) as Hnd' by by rewrite <- Hperm.
    destruct (setAccountsToTrack_colliding_keys db entries Hnd) as [n ->].
    by destruct (setAccountsToTrack_colliding_keys db entries' Hnd') as [n' ->].
Qed.

Lemma setAccountsToTrack_order_irrelevant_witness :
  fst (setAccountsToTrack [entry_evm; entry_goerli] tracking_goerli_db)
  = fst (setAccountsToTrack [entry_goerli; entry_evm] tracking_goerli_db).
Proof.
  apply setAccountsToTrack_order_irrelevant. apply Permutation_swap.
Defined.

(** X12: when the members have pairwise distinct keys, [setAccountsToTrack]
    leaves the store that clearing the registry and calling
    [addAccountToTrack] for each member in turn leaves. *)
Theorem setAccountsToTrack_as_adds (entries : list AccountNetwork.t) (db : ChainDatabase) :
  NoDup (accountsToTrack_keyPath <$> entries) →
  fst (setAccountsToTrack entries db)
  = foldl (fun db e => fst (addAccountToTrack e db)) (with_accountsToTrack db ∅) entries.
Proof.
  intros Hnd. by rewrite setAccountsToTrack_put_form, foldl_addAccountToTrack.
Qed.

Lemma setAccountsToTrack_as_adds_witness :
  fst (setAccountsToTrack [entry_evm; entry_goerli] tracking_goerli_db)
  = fst (addAccountToTrack entry_goerli
           (fst (addAccountToTrack entry_evm (with_accountsToTrack tracking_goerli_db ∅)))).
Proof.
  apply (setAccountsToTrack_as_adds [entry_evm; entry_goerli]).
  apply (bool_decide_unpack _). vm_compute. exact I.
Defined.

(** X13: after a fulfilled [setAccountsToTrack], calling [addAccountToTrack]
    with one of the members changes nothing. *)
Theorem addAccountToTrack_member_noop (entries : list AccountNetwork.t)
  (e : AccountNetwork.t) (db : ChainDatabase) :
  NoDup (accountsToTrack_keyPath <$> entries) →
  e ∈ entries →
  fst (addAccountToTrack e (fst (setAccountsToTrack entries db)))
  = fst (setAccountsToTrack entries db).
Proof.
  intros Hnd He. rewrite setAccountsToTrack_put_form by done.
  unfold addAccountToTrack, with_accountsToTrack, Dexie.put at 1. simpl. f_equal.
  apply insert_id. by apply lookup_foldl_put_member.
Qed.

Lemma addAccountToTrack_member_noop_witness :
  fst (addAccountToTrack entry_goerli
         (fst (setAccountsToTrack [entry_evm; entry_goerli] empty_db)))
  = fst (setAccountsToTrack [entry_evm; entry_goerli] empty_db).
Proof.
  apply addAccountToTrack_member_noop.
  - apply (bool_decide_unpack _). vm_compute. exact I.
  - right. left.
Defined.

(** X14: two [addAccountToTrack] calls whose entries differ in account,
    network name or chain id commute. *)
Theorem addAccountToTrack_commute (e1 e2 : AccountNetwork.t) (db : ChainDatabase) :
  (AccountNetwork.account e1, Network.name (AccountNetwork.network e1),
   Network.chainID (AccountNetwork.network e1))
  ≠ (AccountNetwork.account e2, Network.name (AccountNetwork.network e2),
     Network.chainID (AccountNetwork.network e2)) →
  fst (addAccountToTrack e2 (fst (addAccountToTrack e1 db)))
  = fst (addAccountToTrack e1 (fst (addAccountToTrack e2 db))).
Proof.
  intros Hne. unfold addAccountToTrack, with_accountsToTrack, Dexie.put. simpl. f_equal.
  apply insert_insert_ne. unfold accountsToTrack_keyPath. congruence.
Qed.

Lemma addAccountToTrack_commute_witness :
  fst (addAccountToTrack entry_goerli (fst (addAccountToTrack entry_evm empty_db)))
  = fst (addAccountToTrack entry_evm (fst (addAccountToTrack entry_goerli empty_db))).
Proof.
  apply addAccountToTrack_commute. discriminate.
Defined.

(** X15: after [addAccountToTrack(entry)] the array [getAccountsToTrack]
    resolves to holds the entry and every row that was stored under another
    key; it is one longer than before when the key of the entry was free and
    as long as before when it was taken. The other tables are untouched. *)
Theorem addAccountToTrack_then_list (e : AccountNetwork.t) (db : ChainDatabase) :
  let db' := fst (addAccountToTrack e db) in
  (∃ arr, getAccountsToTrack db' = JSPromise (JSArray arr)
          ∧ e ∈ arr
          ∧ (∀ k r, accountsToTrack db !! k = Some r → k ≠ accountsToTrack_keyPath e → r ∈ arr)
          ∧ (∀ r, r ∈ arr → r = e ∨ ∃ k, accountsToTrack db !! k = Some r)
          ∧ length arr
            = match accountsToTrack db !! accountsToTrack_keyPath e with
              | Some _ => size (accountsToTrack db)
              | None => S (size (accountsToTrack db))
              end)
  ∧ blocks db' = blocks db
  ∧ transactions db' = transactions db
  ∧ balances db' = balances db
  ∧ migrations db' = migrations db.
Proof.
  intros db'. subst db'. unfold addAccountToTrack, Dexie.put. simpl.
  split; [|done].
  eexists. split; [reflexivity|].
  split; [|split; [|split]].
  - apply elem_of_primary_rows. exists (accountsToTrack_keyPath e). apply lookup_insert_eq.
  - intros k r Hr Hne. apply elem_of_primary_rows. exists k. simpl.
    by rewrite lookup_insert_ne.
  - intros r Hr. apply elem_of_primary_rows in Hr as [k Hk]. simpl in Hk.
    destruct (decide (k = accountsToTrack_keyPath e)) as [->|Hne].
    + rewrite lookup_insert_eq in Hk. left. congruence.
    + rewrite lookup_insert_ne in Hk by done. right. by exists k.
  - rewrite length_primary_rows. simpl. rewrite map_size_insert.
    by destruct (accountsToTrack db !! accountsToTrack_keyPath e).
Qed.

Lemma registry_call_well_keyed c db :
  well_keyed accountsToTrack_keyPath (accountsToTrack db) →
  well_keyed accountsToTrack_keyPath (accountsToTrack (registry_call c db)).
Proof.
  intros Hwk. destruct c as [e|es]; simpl.
  - apply (foldl_put_well_keyed accountsToTrack_keyPath [e] _ Hwk).
  - destruct (decide (NoDup (accountsToTrack_keyPath <$> es))) as [Hnd|Hnd].
    + rewrite setAccountsToTrack_put_form by done. simpl.
      apply foldl_put_well_keyed. intros k r Hk. by rewrite lookup_empty in Hk.
    + by destruct (setAccountsToTrack_colliding_keys db es Hnd) as [n ->].
Qed.

(** X16: when every registry row sits under the key its own account,
    network name and chain id give (as in the empty store), the same holds
    after any run of [addAccountToTrack] and [setAccountsToTrack] calls, and
    [getAccountsToTrack] then resolves to an array in which no two entries
    agree on account, network name and chain id. *)
Theorem registry_calls_distinct_keys (cs : list RegistryCall) (db : ChainDatabase) :
  well_keyed accountsToTrack_keyPath (accountsToTrack db) →
  well_keyed accountsToTrack_keyPath (accountsToTrack (registry_calls cs db))
  ∧ ∃ arr, getAccountsToTrack (registry_calls cs db) = JSPromise (JSArray arr)
           ∧ NoDup (accountsToTrack_keyPath <$> arr)
           ∧ length arr = size (accountsToTrack (registry_calls cs db)).
Proof.
  intros Hwk.
  assert (well_keyed accountsToTrack_keyPath (accountsToTrack (registry_calls cs db))) as Hwk'.
  { revert db Hwk. induction cs as [|c cs IH]; intros db Hwk; [done|].
    apply (IH (registry_call c db)). by apply registry_call_well_keyed. }
  split; [exact Hwk'|].
  eexists. split; [reflexivity|]. split.
  - by apply primary_rows_NoDup_keys.
  - apply length_primary_rows.
Qed.

Lemma registry_calls_distinct_keys_witness :
  ∃ arr, getAccountsToTrack (registry_calls sample_registry_calls empty_db)
         = JSPromise (JSArray arr)
         ∧ NoDup (accountsToTrack_keyPath <$> arr)
         ∧ length arr = size (accountsToTrack (registry_calls sample_registry_calls empty_db)).
Proof.
  refine (proj2 (registry_calls_distinct_keys sample_registry_calls empty_db _)).
  intros k r Hk. simpl in Hk. rewrite lookup_empty in Hk. discriminate.
Defined.

(** ** Further properties of the migrations ledger *)

(** X17: from any ledger, [getOrCreateDB] is fulfilled, leaves a non-empty
    ledger that still holds every row it held, and touches no other table;
    opening the store again changes nothing. *)
Theorem getOrCreateDB_postcondition (now : Z) (stored : ChainDatabase) :
  let db := fst (getOrCreateDB now stored) in
  snd (getOrCreateDB now stored) = Dexie.Fulfilled
  ∧ migrations db ≠ ∅
  ∧ migrations stored ⊆ migrations db
  ∧ accountsToTrack db = accountsToTrack stored
  ∧ blocks db = blocks stored
  ∧ transactions db = transactions stored
  ∧ balances db = balances stored
  ∧ ∀ later, getOrCreateDB later db = (db, Dexie.Fulfilled).
Proof.
  intros db. subst db.
  destruct (decide (migrations stored = ∅)) as [Hempty|Hne].
  - rewrite getOrCreateDB_empty_ledger by done. simpl.
    split; [done|]. split; [apply insert_non_empty|].
    split; [rewrite Hempty; apply map_empty_subseteq|].
    do 4 (split; [done|]).
    intros later. apply getOrCreateDB_initialized. simpl. apply insert_non_empty.
  - rewrite getOrCreateDB_initialized by done. simpl.
    do 7 (split; [done|]).
    intros later. by apply getOrCreateDB_initialized.
Qed.

(** ** Further properties of the block tracker *)

Lemma string_compare_Eq (s1 s2 : string) : String.compare s1 s2 = Eq ↔ s1 = s2.
Proof.
  split; [apply String.compare_eq_iff|]. intros ->. apply string_compare_refl.
Qed.

Lemma key_above_name_timestamp (name name' : string) (ts lower : Z) :
  key_above (name', ts) (name, lower) = true
  ↔ String.compare name' name = Gt ∨ (name' = name ∧ lower < ts).
Proof.
  unfold key_above, key_compare, IDBKey_pair. simpl.
  unfold key_compare at 1, IDBKey_string.
  destruct (String.compare name' name) eqn:Hcmp.
  - apply string_compare_Eq in Hcmp. subst name'.
    fold (key_above ts lower). rewrite key_above_Z.
    split; [by right|]. by intros [Hgt|[_ ?]].
  - split; [discriminate|]. intros [?|[-> _]]; [discriminate|].
    rewrite string_compare_refl in Hcmp. discriminate.
  - split; [by left|done].
Qed.

(** X18: the promise that the query of [getLatestBlock] builds resolves to
    an array that holds exactly the stored blocks whose network name sorts
    after the queried name, whatever their time stamp, together with the
    stored blocks of the queried name whose time stamp is greater than
    [Date.now() - 86400]; its first element, when there is one, carries the
    greatest time stamp of the array. *)
Theorem latestBlockQuery_selection (db : ChainDatabase) (network : Network.t) (now : Z) :
  ∃ arr, latestBlockQuery db network now = JSPromise (JSArray arr)
    ∧ (∀ b, b ∈ arr ↔
            stored_block db b
            ∧ (String.compare (Network.name (EIP1559Block.network b)) (Network.name network) = Gt
               ∨ (Network.name (EIP1559Block.network b) = Network.name network
                  ∧ now - 60 * 60 * 24 < EIP1559Block.timestamp b)))
    ∧ (∀ b0 rest, arr = b0 :: rest →
                  ∀ b, b ∈ arr → EIP1559Block.timestamp b ≤ EIP1559Block.timestamp b0).
Proof.
  eexists. split; [reflexivity|]. split.
  - intros b. unfold Dexie.sortBy_rows.
    rewrite elem_of_array_sort, elem_of_iterate. simpl.
    rewrite list_elem_of_In, filter_In, <- list_elem_of_In, elem_of_index_rows.
    unfold blocks_name_timestamp. rewrite key_above_name_timestamp.
    unfold stored_block. tauto.
  - intros b0 rest Harr b Hb.
    unfold Dexie.sortBy_rows in Harr, Hb. simpl in Harr, Hb.
    apply elem_of_array_sort in Hb.
    exact (array_sort_descending_head _ _ _ _ Harr b Hb).
Qed.

(** ** Further properties of the balance tracker *)

(** X19: [getLatestAccountBalance] reads the name of the network and the
    symbol of the asset only: networks of the same name and assets of the
    same symbol get the same answer, whatever their other fields. *)
Theorem getLatestAccountBalance_names_only (db : ChainDatabase) (account : string)
  (network network' : Network.t) (asset asset' : FungibleAsset.t) (now : Z) :
  Network.name network' = Network.name network →
  FungibleAsset.symbol asset' = FungibleAsset.symbol asset →
  getLatestAccountBalance db account network' asset' now
  = getLatestAccountBalance db account network asset now.
Proof.
  intros Hname Hsymbol.
  unfold getLatestAccountBalance, balance_matches. by rewrite Hname, Hsymbol.
Qed.

Lemma getLatestAccountBalance_names_only_witness :
  getLatestAccountBalance two_balances_db "0xabc" (Network.mk "BTC" "7" "Ethereum")
                          (FungibleAsset.mk "ETH" []) sample_now
  = getLatestAccountBalance two_balances_db "0xabc" ethereum eth sample_now.
Proof.
  apply getLatestAccountBalance_names_only; reflexivity.
Defined.

(** ** The order of the sorted arrays *)

Section array_sort_sorted.
Context {A : Type} (cmp : A → A → Z).
Hypothesis cmp_total : ∀ x y, cmp x y ≤ 0 ∨ cmp y x ≤ 0.
Hypothesis cmp_trans : ∀ x y z, cmp x y ≤ 0 → cmp y z ≤ 0 → cmp x z ≤ 0.

Lemma insert_by_sorted x l :
  StronglySorted (fun x y => cmp x y ≤ 0) l →
  StronglySorted (fun x y => cmp x y ≤ 0) (insert_by cmp x l).
Proof using cmp_total cmp_trans.
  induction l as [|y l IH]; intros Hs; simpl.
  - repeat constructor.
  - apply StronglySorted_cons in Hs as [Hy Hs].
    destruct (cmp x y <=? 0) eqn:Hc.
    + apply Z.leb_le in Hc. apply StronglySorted_cons. split.
      * constructor; [exact Hc|].
        eapply Forall_impl; [exact Hy|]. intros z Hz. by apply (cmp_trans x y z).
      * by apply StronglySorted_cons.
    + apply Z.leb_gt in Hc.
      assert (cmp y x ≤ 0) as Hyx by (destruct (cmp_total x y); [lia|done]).
      apply StronglySorted_cons. split; [|by apply IH].
      rewrite insert_by_Permutation. by constructor.
Qed.

Lemma array_sort_sorted l : StronglySorted (fun x y => cmp x y ≤ 0) (array_sort cmp l).
Proof using cmp_total cmp_trans.
  induction l as [|x l IH]; simpl; [constructor|]. by apply insert_by_sorted.
Qed.

End array_sort_sorted.

(** A stable sort leaves an array that is in order as it is. *)
Lemma array_sort_sorted_id {A} (cmp : A → A → Z) (l : list A) :
  StronglySorted (fun x y => cmp x y ≤ 0) l → array_sort cmp l = l.
Proof.
  induction l as [|x l IH]; intros Hs; [done|].
  apply StronglySorted_cons in Hs as [Hx Hs].
  simpl. rewrite IH by done.
  destruct l as [|y l]; [done|]. simpl.
  apply Forall_cons in Hx as [Hxy _]. apply Z.leb_le in Hxy. by rewrite Hxy.
Qed.

Lemma StronglySorted_filter {A} (R : relation A) (f : A → bool) (l : list A) :
  StronglySorted R l → StronglySorted R (List.filter f l).
Proof.
  induction l as [|x l IH]; intros Hs; [done|].
  apply StronglySorted_cons in Hs as [Hx Hs]. simpl.
  destruct (f x); [|by apply IH].
  apply StronglySorted_cons. split; [|by apply IH].
  apply Forall_forall. intros y Hy.
  apply list_elem_of_In, filter_In in Hy as [Hy _].
  rewrite Forall_forall in Hx. apply Hx. by apply list_elem_of_In.
Qed.

Lemma StronglySorted_rev {A} (R : relation A) (l : list A) :
  StronglySorted R l → StronglySorted (flip R) (rev l).
Proof.
  induction l as [|x l IH]; intros Hs; [constructor|].
  apply StronglySorted_cons in Hs as [Hx Hs]. simpl.
  apply StronglySorted_app_2; [|by apply IH|repeat constructor].
  intros y z Hy Hz. apply list_elem_of_singleton in Hz. subst z.
  apply list_elem_of_In, in_rev, list_elem_of_In in Hy.
  rewrite Forall_forall in Hx. by apply Hx.
Qed.

Lemma StronglySorted_fmap {A B} (R : relation A) (R' : relation B) (f : A → B) (l : list A) :
  (∀ x y, R x y → R' (f x) (f y)) →
  StronglySorted R l → StronglySorted R' (f <$> l).
Proof.
  intros Hf. induction l as [|x l IH]; intros Hs; [constructor|].
  apply StronglySorted_cons in Hs as [Hx Hs].
  rewrite fmap_cons. apply StronglySorted_cons. split; [|by apply IH].
  apply Forall_fmap. eapply Forall_impl; [exact Hx|]. intros y Hy. by apply Hf.
Qed.

Lemma filter_fmap_snd {A B} (f : B → bool) (l : list (A * B)) :
  List.filter f (snd <$> l) = snd <$> List.filter (fun p => f (snd p)) l.
Proof.
  induction l as [|p l IH]; [done|].
  rewrite fmap_cons. cbn [List.filter].
  destruct (f (snd p)); rewrite ?fmap_cons, IH; done.
Qed.

Lemma list_filter_filter {A} (f g : A → bool) (l : list A) :
  List.filter f (List.filter g l) = List.filter (fun x => g x && f x) l.
Proof.
  induction l as [|x l IH]; [done|]. simpl.
  destruct (g x); simpl; [destruct (f x)|]; by rewrite IH.
Qed.

Lemma key_cmp_Z_pair (a b i j : Z) :
  key_cmp_Z (a, i) (b, j) ≤ 0 ↔ a < b ∨ (a = b ∧ i ≤ j).
Proof.
  unfold key_cmp_Z, key_compare, IDBKey_pair. simpl.
  unfold key_compare, IDBKey_Z.
  destruct (Z.compare_spec a b); [destruct (Z.compare_spec i j)|..]; lia.
Qed.

(** The (primary key, row) pairs of [balances] in the order of the index
    [retrievedAt]. *)
Lemma balance_index_sorted (t : gmap Z AccountBalance.t) :
  StronglySorted balance_index_le
    (array_sort (fun r1 r2 => key_cmp_Z (AccountBalance.retrievedAt (snd r1), fst r1)
                                         (AccountBalance.retrievedAt (snd r2), fst r2))
                (map_to_list t)).
Proof.
  rewrite <- (list_fmap_id (array_sort _ _)).
  eapply (StronglySorted_fmap _ _ id); [|apply array_sort_sorted].
  - intros x y Hxy. simpl in Hxy. apply key_cmp_Z_pair in Hxy. exact Hxy.
  - intros x y. rewrite !key_cmp_Z_pair. lia.
  - intros x y z. rewrite !key_cmp_Z_pair. lia.
Qed.

(** The array [getLatestAccountBalance] awaits is the fresh, matching part
    of the index, read backwards: sorting it changes nothing. *)
Lemma balance_candidates_index db account network asset now :
  ∃ pairs,
    balance_candidates db account network asset now = snd <$> pairs
    ∧ pairs = rev (List.filter
                     (fun p => key_above (AccountBalance.retrievedAt (snd p))
                                         (now - 7 * 24 * 60 * 60 * 1000)
                               && balance_matches account network asset (snd p))
                     (array_sort
                        (fun r1 r2 => key_cmp_Z (AccountBalance.retrievedAt (snd r1), fst r1)
                                                 (AccountBalance.retrievedAt (snd r2), fst r2))
                        (map_to_list (balances db))))
    ∧ StronglySorted (flip balance_index_le) pairs.
Proof.
  eexists. split; [|split; [reflexivity|]].
  - unfold balance_candidates, Dexie.sortBy_rows, Dexie.iterate. simpl.
    unfold Dexie.index_rows.
    rewrite !filter_fmap_snd, <- map_rev.
    rewrite array_sort_sorted_id.
    + by rewrite list_filter_filter.
    + eapply StronglySorted_fmap; [|apply StronglySorted_rev, StronglySorted_filter,
                                      StronglySorted_filter, balance_index_sorted].
      intros p q Hqp. apply Z.leb_le, sorter_descending.
      unfold flip, balance_index_le in Hqp. lia.
  - apply StronglySorted_rev, StronglySorted_filter, balance_index_sorted.
Qed.

Lemma balance_index_le_refl p : balance_index_le p p.
Proof. unfold balance_index_le. lia. Qed.

Lemma fresh_matching_true account network asset now r :
  key_above (AccountBalance.retrievedAt r) (now - 7 * 24 * 60 * 60 * 1000)
  && balance_matches account network asset r = true
  ↔ fresh_balance_for account network asset now r.
Proof.
  rewrite andb_true_iff, key_above_Z, balance_matches_true.
  unfold fresh_balance_for, seven_days. tauto.
Qed.


(** X20: the row [getLatestAccountBalance] resolves to is the last one, in
    the order of the index [retrievedAt], among the stored rows that are
    fresh and match: no such row was retrieved later, and among those
    retrieved at the same time it is the one with the greatest primary
    key. *)
Theorem getLatestAccountBalance_tie_break (db : ChainDatabase) (account : string)
  (network : Network.t) (asset : FungibleAsset.t) (now : Z) (r0 : AccountBalance.t) :
  getLatestAccountBalance db account network asset now = JSPromise (JSRecord r0) →
  ∃ id0, balances db !! id0 = Some r0
         ∧ ∀ id r, balances db !! id = Some r →
                   fresh_balance_for account network asset now r →
                   AccountBalance.retrievedAt r < AccountBalance.retrievedAt r0
                   ∨ (AccountBalance.retrievedAt r = AccountBalance.retrievedAt r0 ∧ id ≤ id0).
Proof.
  rewrite getLatestAccountBalance_candidates.
  destruct (balance_candidates_index db account network asset now)
    as (pairs & -> & Hpairs & Hsorted).
  assert (∀ id r, (id, r) ∈ pairs
                  ↔ balances db !! id = Some r ∧ fresh_balance_for account network asset now r)
    as Hmem.
  { intros id r. rewrite Hpairs, list_elem_of_In, <- in_rev, filter_In, <- list_elem_of_In.
    simpl. by rewrite elem_of_array_sort, elem_of_map_to_list, fresh_matching_true. }
  clear Hpairs. destruct pairs as [|[id0 r0'] rest]; [discriminate|].
  rewrite fmap_cons. simpl. intros [= ->].
  exists id0. split; [apply (Hmem id0 r0); left|].
  intros id r Hr Hfresh.
  assert ((id, r) ∈ (id0, r0) :: rest) as Hin by by apply Hmem.
  apply StronglySorted_cons in Hsorted as [Hhead _].
  apply elem_of_cons in Hin as [[= -> ->]|Hin]; [lia|].
  rewrite Forall_forall in Hhead. exact (Hhead _ Hin).
Qed.

Lemma getLatestAccountBalance_tie_break_witness :
  ∃ id0, balances tied_balances_db !! id0
         = Some (sample_balance 2 97 (sample_now - 6 * 24 * 60 * 60 * 1000))
         ∧ ∀ id r, balances tied_balances_db !! id = Some r →
                   fresh_balance_for "0xabc" ethereum eth sample_now r →
                   AccountBalance.retrievedAt r < sample_now - 6 * 24 * 60 * 60 * 1000
                   ∨ (AccountBalance.retrievedAt r = sample_now - 6 * 24 * 60 * 60 * 1000
                      ∧ id ≤ id0).
Proof.
  apply (getLatestAccountBalance_tie_break tied_balances_db "0xabc" ethereum eth sample_now
           (sample_balance 2 97 (sample_now - 6 * 24 * 60 * 60 * 1000))).
  vm_compute. reflexivity.
Defined.


